(** * Lianjia crawler: fetch, retry and extraction pipeline

    A shallow embedding of [src/main.py] and [src/detail_scraper.py].

    - Python [str] is a list of Unicode code points ([pystr]); literals of the
      source are written as UTF-8 text and decoded by [u].
    - Python [dict] is a [gmap]; the [features] table of [categorise], whose
      iteration order matters, is an association list.
    - The network ([requests.Session.get]) is an oracle indexed by the number
      of the call; the calls and the sleeps are logged in a trace.
    - The HTML parser ([lxml.etree.HTML]), the URL splitter ([urlparse]), the
      regular expression engine ([re.search]) and the GBK codec are external
      libraries: they are parameters of the functions that call them, and so
      are the console that [print] writes to, the draw of [random.uniform]
      and the longest sleep that [time.sleep] accepts. A library call that
      can raise returns a [result]. *)

From Stdlib Require Import String Ascii QArith Qminmax.
From stdpp Require Import gmap strings list fin_maps pretty.

Open Scope string_scope.
Open Scope list_scope.
Open Scope N_scope.

(** ** Python strings *)

Module PyStr.

Abbreviation pystr := (list N).

Definition cont (b : N) : N := N.land b 63.

(** UTF-8 decoding of the bytes of a source literal. *)
Fixpoint utf8 (bs : list N) : pystr :=
  match bs with
  | [] => []
  | b0 :: r0 =>
      if b0 <? 128 then b0 :: utf8 r0
      else if b0 <? 224 then
        match r0 with
        | b1 :: r1 => (N.shiftl (N.land b0 31) 6 + cont b1) :: utf8 r1
        | [] => []
        end
      else if b0 <? 240 then
        match r0 with
        | b1 :: b2 :: r2 =>
            (N.shiftl (N.land b0 15) 12 + N.shiftl (cont b1) 6 + cont b2)
              :: utf8 r2
        | _ => []
        end
      else
        match r0 with
        | b1 :: b2 :: b3 :: r3 =>
            (N.shiftl (N.land b0 7) 18 + N.shiftl (cont b1) 12
             + N.shiftl (cont b2) 6 + cont b3) :: utf8 r3
        | _ => []
        end
  end.

Definition u (s : string) : pystr :=
  utf8 (map (fun a => N_of_ascii a) (String.list_ascii_of_string s)).

(** [prefix_of p s]: [s.startswith(p)]. *)
Fixpoint prefix_of (p s : pystr) : bool :=
  match p, s with
  | [], _ => true
  | _ :: _, [] => false
  | a :: p', b :: s' => (a =? b) && prefix_of p' s'
  end.

(** [contains p s]: the Python test [p in s]. *)
Fixpoint contains (p s : pystr) : bool :=
  prefix_of p s ||
  match s with
  | [] => false
  | _ :: s' => contains p s'
  end.

(** [str.isspace] on one code point. *)
Definition is_space (c : N) : bool :=
  ((9 <=? c) && (c <=? 13)) || ((28 <=? c) && (c <=? 32))
  || (c =? 133) || (c =? 160) || (c =? 5760)
  || ((8192 <=? c) && (c <=? 8202))
  || (c =? 8232) || (c =? 8233) || (c =? 8239) || (c =? 8287)
  || (c =? 12288).

Fixpoint lstrip (s : pystr) : pystr :=
  match s with
  | c :: s' => if is_space c then lstrip s' else s
  | [] => []
  end.

(** [s.strip()] *)
Definition strip (s : pystr) : pystr := rev (lstrip (rev (lstrip s))).

(** [sep.join(parts)] *)
Fixpoint join (sep : pystr) (parts : list pystr) : pystr :=
  match parts with
  | [] => []
  | [p] => p
  | p :: rest => p ++ sep ++ join sep rest
  end.

(** [s.split(sep)] for a non-empty separator: [skip] counts the code
    points of a separator still to be passed over, [cur] holds the current
    piece, reversed. *)
Fixpoint split_go (sep : pystr) (skip : nat) (cur s : pystr) : list pystr :=
  match s with
  | [] => [rev cur]
  | c :: s' =>
      match skip with
      | S k => split_go sep k cur s'
      | O =>
          if prefix_of sep s
          then rev cur :: split_go sep (length sep - 1) [] s'
          else split_go sep 0 (c :: cur) s'
      end
  end.

Definition split (sep s : pystr) : list pystr := split_go sep 0 [] s.

(** Truth value of a string: non-empty. *)
Definition truthy (s : pystr) : bool :=
  match s with [] => false | _ => true end.

End PyStr.
Import PyStr.

(** ** Exceptions and results *)

Inductive exn_kind :=
| TypeError
| AttributeError
| IndexError
| RuntimeError
| ValueError
| OverflowError
| UnicodeEncodeError
| RequestException
| OtherError.

(** An exception object: its class and [str(exc)]. *)
Record exn := Exn { kind : exn_kind; msg : pystr }.

Inductive result (A : Type) :=
| Return (a : A)
| Raise (e : exn).
Arguments Return {A} a.
Arguments Raise {A} e.

(** ** [main.py]: classification of the configuration details *)

Module Categorise.

(** The [features] table, in the order Python iterates it. *)
Definition features : list (pystr * list pystr) :=
  [ (u "configuration", [u "室"; u "厅"]);
    (u "area", [u "平米"]);
    (u "towards", [u "东"; u "南"; u "西"; u "北"]);
    (u "decorate", [u "精装"; u "简装"; u "毛坯"]);
    (u "storey", [u "层"]);
    (u "period", [u "年"]);
    (u "categorie", [u "板塔结合"; u "板楼"; u "塔楼"]) ].

Section Loops.
Variable table : list (pystr * list pystr).

(** [for value in values: if value in detail: res[key] = detail] *)
Definition scan_values (detail key : pystr) (values : list pystr)
    (res : gmap pystr pystr) : gmap pystr pystr :=
  foldl (fun r value => if contains value detail then <[key := detail]> r else r)
        res values.

(** [for key, values in features.items(): ...] *)
Definition scan_features (res : gmap pystr pystr) (detail : pystr)
    : gmap pystr pystr :=
  foldl (fun r kv => scan_values detail (fst kv) (snd kv) r) res table.

(** [for detail in details: ...] *)
Definition scan_details (details : list pystr) : gmap pystr pystr :=
  foldl scan_features ∅ details.

(** A segment matches an attribute when it contains one of the keywords
    the table lists for it. *)
Definition matchesb (key detail : pystr) : bool :=
  existsb (fun kv => bool_decide (fst kv = key)
                     && existsb (fun value => contains value detail) (snd kv))
          table.
End Loops.

(** [categorise(details)]; iterating [None] raises [TypeError]. *)
Definition categorise (details : option (list pystr))
    : result (gmap pystr pystr) :=
  match details with
  | None => Raise (Exn TypeError (u "'NoneType' object is not iterable"))
  | Some l => Return (scan_details features l)
  end.

(** A segment matches an attribute of [features] when it contains one of
    the attribute's keywords. *)
Definition matches (key detail : pystr) : Prop :=
  ∃ values value,
    (key, values) ∈ features ∧ value ∈ values ∧ contains value detail = true.

End Categorise.
Import Categorise.

(** ** Parsed HTML and the XPath steps the crawler uses *)

Module Dom.

#[local] Set Warnings "-register-all".

Inductive node :=
| Text (s : pystr)
| Elem (tag : pystr) (attrs : list (pystr * pystr)) (children : list node).

(** Outcome of [etree.HTML(body)]: the parser raises, yields no root
    ([None]) or yields the root element. *)
Inductive parsed :=
| ParseRaises (e : exn)
| ParseNone
| ParseTree (root : node).

Definition children (n : node) : list node :=
  match n with
  | Elem _ _ cs => cs
  | Text _ => []
  end.

Definition is_elem (t : pystr) (n : node) : bool :=
  match n with
  | Elem t' _ _ => bool_decide (t' = t)
  | Text _ => false
  end.

Fixpoint assoc (k : pystr) (l : list (pystr * pystr)) : option pystr :=
  match l with
  | [] => None
  | (k', v) :: l' => if bool_decide (k' = k) then Some v else assoc k l'
  end.

(** [@name] *)
Definition attr (name : pystr) (n : node) : option pystr :=
  match n with
  | Elem _ a _ => assoc name a
  | Text _ => None
  end.

(** [[@class="v"]] *)
Definition class_is (v : pystr) (n : node) : bool :=
  bool_decide (attr (u "class") n = Some v).

(** [[contains(@class, "v")]]; a missing attribute is the empty string. *)
Definition class_has (v : pystr) (n : node) : bool :=
  contains v (default [] (attr (u "class") n)).

(** [./t[p]] from every node of [ctx]. *)
Definition child (t : pystr) (p : node -> bool) (ctx : list node) : list node :=
  ctx ≫= (fun n => filter (fun c => is_elem t c && p c = true) (children n)).

Definition any (_ : node) : bool := true.

(** [/text()] *)
Definition text_of (n : node) : list pystr :=
  match n with
  | Text s => [s]
  | Elem _ _ _ => []
  end.

Definition texts (ctx : list node) : list pystr :=
  ctx ≫= (fun n => children n ≫= text_of).

(** [/@name] *)
Definition attrs_of (name : pystr) (ctx : list node) : list pystr :=
  ctx ≫= (fun n => option_list (attr name n)).

(** Document-order walk of [n] and its descendants, each node with its
    ancestors, nearest first. *)
Fixpoint walk (anc : list node) (n : node) : list (list node * node) :=
  (anc, n) ::
  match n with
  | Text _ => []
  | Elem _ _ cs =>
      (fix walk_list (l : list node) : list (list node * node) :=
         match l with
         | [] => []
         | c :: l' => walk (n :: anc) c ++ walk_list l'
         end) cs
  end.

(** How a step of a path relates to the step before it: [/] or [//]. *)
Inductive axis := Child | Desc.

(** [under ps anc]: the ancestors [anc] (nearest first) match the earlier
    steps [ps] of a path, read right to left: a [Child] step is the
    parent, a [Desc] step any ancestor further out. *)
Fixpoint under (ps : list (axis * (node -> bool))) (anc : list node) : bool :=
  match ps with
  | [] => true
  | (Child, p) :: ps' =>
      match anc with
      | a :: l' => p a && under ps' l'
      | [] => false
      end
  | (Desc, p) :: ps' =>
      (fix find (l : list node) : bool :=
         match l with
         | [] => false
         | a :: l' => (p a && under ps' l') || find l'
         end) anc
  end.

Definition select (ps : list (axis * (node -> bool))) (pk : node -> bool)
    (w : list (list node * node)) : list node :=
  (filter (fun x => pk (snd x) && under ps (fst x) = true) w).*2.

(** An absolute path [//s1 ... sk]: the nodes of the document, in document
    order, that satisfy [pk] and whose ancestors match [ps]. *)
Definition descend (ps : list (axis * (node -> bool))) (pk : node -> bool)
    (root : node) : list node :=
  select ps pk (walk [] root).

(** A relative path [.//s1 ... sk] below the context node [n]. *)
Definition descend_in (ps : list (axis * (node -> bool))) (pk : node -> bool)
    (n : node) : list node :=
  select ps pk (children n ≫= walk []).

Definition is_text (n : node) : bool :=
  match n with
  | Text _ => true
  | Elem _ _ _ => false
  end.

(** [.//text()] below [n] *)
Definition all_texts (n : node) : list pystr :=
  descend_in [] is_text n ≫= text_of.

End Dom.
Import Dom.

(** ** [main.py]: the listing extractor *)

Module Listing.

(** One element of the list [extract] returns. *)
Record info := {
  title : option pystr;
  location : pystr;
  details : gmap pystr pystr;
  total_price : option pystr;
  unit_price : option pystr;
  follow_count : option pystr;
  visit_count : option pystr;
  publish_time : option pystr;
  tags : list pystr;
  follow_info : pystr;
  link : option pystr
}.

Definition div_info : list node -> list node :=
  child (u "div") (class_is (u "info clear")).

(** [//ul[@class="sellListContent"]/li] *)
Definition li_list (root : node) : list node :=
  descend [(Child, fun n => is_elem (u "ul") n && class_is (u "sellListContent") n)]
          (is_elem (u "li")) root.

Section Extract.
(** [re.search(pattern, text)]: group 1 of the first match, if any. *)
Variable re_search : pystr -> pystr -> option pystr.

(** The metrics read from the follow text; all [None] when it is empty. *)
Definition metrics (follow_text : pystr)
    : option pystr * option pystr * option pystr :=
  if truthy follow_text then
    (re_search (u "(\d+)\s*人关注") follow_text,
     re_search (u "共(\d+)\s*次带看") follow_text,
     re_search (u "((?:\d+天(?:以前|以内)发布)|今天发布|刚刚发布)") follow_text)
  else (None, None, None).

(** The body of [for li in li_list]. *)
Definition extract_item (li : node) : result info :=
  let title := head (texts (child (u "a") any
                 (child (u "div") (class_is (u "title")) (div_info [li])))) in
  let location := join (u ", ") (texts (child (u "a") any
                 (child (u "div") (class_is (u "positionInfo"))
                   (child (u "div") (class_is (u "flood")) (div_info [li]))))) in
  let details := texts (child (u "div") any
                 (child (u "div") (class_is (u "address")) (div_info [li]))) in
  let details := (fun d => split (u " | ") d) <$> head details in
  let total_price := texts (child (u "span") any (child (u "div") any
                 (child (u "div") (class_is (u "priceInfo")) (div_info [li])))) in
  let total_price := (fun p => p ++ u " 万") <$> head total_price in
  let unit_price := attrs_of (u "data-price")
                 (child (u "div") (class_is (u "unitPrice"))
                   (child (u "div") (class_is (u "priceInfo")) (div_info [li]))) in
  let unit_price := (fun p => p ++ u " 元") <$> head unit_price in
  let jump_link := head (attrs_of (u "href") (child (u "a") any
                 (child (u "div") (class_is (u "title")) (div_info [li])))) in
  let follow_parts := texts
                 (child (u "div") (class_is (u "followInfo")) (div_info [li])) in
  let follow_text := join (u " / ")
                 (filter (fun p => truthy p = true) (strip <$> follow_parts)) in
  let '(follow_count, visit_count, publish_time) := metrics follow_text in
  let tags := child (u "div") (class_is (u "tag")) (div_info [li])
                ≫= all_texts in
  let tags := filter (fun t => truthy t = true) (strip <$> tags) in
  match categorise details with
  | Raise e => Raise e
  | Return cats =>
      Return {| title := title; location := location; details := cats;
                total_price := total_price; unit_price := unit_price;
                follow_count := follow_count; visit_count := visit_count;
                publish_time := publish_time; tags := tags;
                follow_info := follow_text; link := jump_link |}
  end.

(** [for li in li_list: ... infos.append(...)] *)
Fixpoint extract_items (lis : list node) : result (list info) :=
  match lis with
  | [] => Return []
  | li :: rest =>
      match extract_item li with
      | Raise e => Raise e
      | Return i =>
          match extract_items rest with
          | Raise e => Raise e
          | Return rest' => Return (i :: rest')
          end
      end
  end.

(** [extract(html_code)], on the outcome of [etree.HTML(html_code)].
    The value is [None] or a list. *)
Definition extract_parsed (p : parsed) : result (option (list info)) :=
  match p with
  | ParseRaises _ => Return None
  | ParseNone =>
      Raise (Exn AttributeError (u "'NoneType' object has no attribute 'xpath'"))
  | ParseTree root =>
      match li_list root with
      | [] => Return None
      | lis =>
          match extract_items lis with
          | Raise e => Raise e
          | Return infos => Return (Some infos)
          end
      end
  end.

Variable etree_HTML : pystr -> parsed.

Definition extract (html_code : pystr) : result (option (list info)) :=
  extract_parsed (etree_HTML html_code).

End Extract.

End Listing.

(** ** Python floats, as far as they are compared *)

Module PyFloat.

(** A float is not-a-number, an infinity or a finite (rational) value. *)
Inductive pyfloat :=
| NaN
| NegInf
| Fin (q : Q)
| PosInf.

(** [a > b] *)
Definition gt (a b : pyfloat) : bool :=
  match a, b with
  | NaN, _ | _, NaN => false
  | PosInf, PosInf => false
  | PosInf, _ => true
  | _, PosInf => false
  | NegInf, _ => false
  | Fin _, NegInf => true
  | Fin x, Fin y => negb (Qle_bool x y)
  end.

(** [a <= b] *)
Definition le (a b : pyfloat) : bool :=
  match a, b with
  | NaN, _ | _, NaN => false
  | NegInf, _ => true
  | _, PosInf => true
  | _, NegInf => false
  | PosInf, _ => false
  | Fin x, Fin y => Qle_bool x y
  end.

(** [max(a, b)] keeps its first argument unless the second is greater. *)
Definition py_max (a b : pyfloat) : pyfloat := if gt b a then b else a.

Definition zero : pyfloat := Fin 0%Q.

End PyFloat.
Import PyFloat.

(** ** The session, the network and the effects of the crawler *)

Module Net.

(** What the crawler reads of a [requests.Response]: [text] under the
    encoding the server declared, and [apparent_text], the text once
    [response.encoding] is set to the detected encoding. *)
Record response := {
  status_code : Z;
  text : pystr;
  apparent_text : pystr
}.

(** [session.get] returns a response or raises [requests.RequestException]. *)
Inductive outcome :=
| Responds (r : response)
| Fails (msg : pystr).

Inductive event :=
| EvGet (url : pystr) (timeout : Z) (referer : option pystr)
| EvSleep (lo hi : pyfloat).

(** The state of the process: the hosts already warmed
    ([request_detail._prewarmed]), the number of requests sent so far and
    the log of requests and sleeps, oldest first. *)
Record world := {
  prewarmed : gset pystr;
  calls : nat;
  trace : list event
}.

Definition M (A : Type) : Type := world -> result A * world.

Definition ret {A} (a : A) : M A := fun w => (Return a, w).

Definition raise {A} (e : exn) : M A := fun w => (Raise e, w).

Definition bind {A B} (m : M A) (k : A -> M B) : M B :=
  fun w =>
    match m w with
    | (Return a, w') => k a w'
    | (Raise e, w') => (Raise e, w')
    end.

(** [try: m  except Exception as exc: h exc] *)
Definition try_except {A} (m : M A) (h : exn -> M A) : M A :=
  fun w =>
    match m w with
    | (Return a, w') => (Return a, w')
    | (Raise e, w') => h e w'
    end.

Definition lift {A} (r : result A) : M A := fun w => (r, w).

(** A sleep of a duration that lies in the window [lo, hi] and that the
    clock accepts: it is logged with its window. *)
Definition sleep (lo hi : pyfloat) : M unit :=
  fun w => (Return tt, {| prewarmed := prewarmed w; calls := calls w;
                          trace := trace w ++ [EvSleep lo hi] |}).

(** [time.sleep(secs)] for a duration [secs] computed at run time (drawn
    from the window [lo, hi]): it raises when [secs] is not a number, is out
    of the range of the clock ([clock_max] is the longest sleep the clock
    accepts) or is negative, and sleeps otherwise. *)
Definition sleep_secs (clock_max : Q) (secs lo hi : pyfloat) : M unit :=
  match secs with
  | NaN => raise (Exn ValueError (u "Invalid value NaN (not a number)"))
  | NegInf | PosInf =>
      raise (Exn OverflowError (u "timestamp too large to convert to C _PyTime_t"))
  | Fin q =>
      if Qle_bool q clock_max && Qle_bool (- clock_max) q then
        if Qle_bool 0 q then sleep lo hi
        else raise (Exn ValueError (u "sleep length must be non-negative"))
      else raise (Exn OverflowError (u "timestamp too large to convert to C _PyTime_t"))
  end.

Definition warmed (domain : pystr) : M bool :=
  fun w => (Return (bool_decide (domain ∈ prewarmed w)), w).

Definition mark_warmed (domain : pystr) : M unit :=
  fun w => (Return tt, {| prewarmed := {[domain]} ∪ prewarmed w;
                          calls := calls w; trace := trace w |}).

Section Oracle.
(** The outcome of the [i]-th request of the process, sent to [url]. *)
Variable net : nat -> pystr -> outcome.

(** [session.get(url, headers=..., timeout=...)], its exception reified. *)
Definition get (url : pystr) (timeout : Z) (referer : option pystr)
    : M outcome :=
  fun w => (Return (net (calls w) url),
            {| prewarmed := prewarmed w; calls := S (calls w);
               trace := trace w ++ [EvGet url timeout referer] |}).
End Oracle.

End Net.
Import Net.

#[global] Instance M_ret : MRet M := @Net.ret.
#[global] Instance M_bind : MBind M := fun A B k m => Net.bind m k.

(** ** [main.py]: the page fetcher *)

Module PageFetcher.

Section GetHtml.
Variable net : nat -> pystr -> outcome.
Variable PROFILE_USER_AGENT : pystr.
Variable USER_AGENTS : list pystr.
(** [str(exc)] of the [HTTPError] that [raise_for_status] builds. *)
Variable http_error : response -> pystr.

(** [a or b] on strings *)
Definition str_or (a b : pystr) : pystr := if truthy a then a else b.

(** [response.raise_for_status()] raises for a status in 400..599. *)
Definition raise_for_status (r : response) : bool :=
  ((400 <=? status_code r) && (status_code r <? 600))%Z.

(** The chain of [or] picking the User-Agent of a request; only when
    every configured value is empty does it reach [random.choice], which
    raises on an empty list (its pick does not change what follows). *)
Definition pick_user_agent (headers : gmap pystr pystr)
    (preferred : option pystr) : M unit :=
  if truthy (str_or (default [] preferred)
               (str_or (default [] (headers !! u "User-Agent"))
                       PROFILE_USER_AGENT))
  then mret tt
  else match USER_AGENTS with
       | [] => raise (Exn IndexError (u "Cannot choose from an empty sequence"))
       | _ => mret tt
       end.

(** The loop [for attempt in range(retries)] with [n] attempts left. *)
Fixpoint get_html_loop (url : pystr) (headers : gmap pystr pystr)
    (preferred : option pystr) (n : nat) : M pystr :=
  match n with
  | O => raise (Exn RuntimeError (u "Failed to retrieve html"))
  | S n' =>
      pick_user_agent headers preferred ;;
      o ← get net url 6 (headers !! u "Referer") ;
      let failed (e : exn) : M pystr :=
        match n' with
        | O => raise e
        | S _ =>
            sleep (Fin (8 # 10)) (Fin (16 # 10)) ;;
            get_html_loop url headers preferred n'
        end in
      match o with
      | Fails m => failed (Exn RequestException m)
      | Responds r =>
          if raise_for_status r
          then failed (Exn RequestException (http_error r))
          else mret (text r)
      end
  end.

Definition get_html (url : pystr) (headers : gmap pystr pystr)
    (retries : Z) (preferred : option pystr) : M pystr :=
  get_html_loop url headers preferred (Z.to_nat retries).

End GetHtml.

End PageFetcher.

(** ** [detail_scraper.py]: the detail fetcher *)

Module DetailFetcher.

(** The anti-bot signatures [request_detail] looks for. *)
Definition blocked (body : pystr) : bool :=
  contains (u "访问验证") body || contains (u "请开启JavaScript") body.

Section RequestDetail.
Variable net : nat -> pystr -> outcome.
(** [urlparse(url)]: the [scheme] and the [netloc] of the URL, or the
    [ValueError] it raises on a URL it rejects. *)
Variable urlparse : pystr -> result (pystr * pystr).
Variable USER_AGENT_POOL : list pystr.

(** [(parsed.scheme, parsed.netloc)]; it is read only after [urlparse] has
    returned. *)
Definition components (url : pystr) : pystr * pystr :=
  match urlparse url with
  | Return parsed => parsed
  | Raise _ => ([], [])
  end.

Definition domain_of (url : pystr) : pystr :=
  fst (components url) ++ u "://" ++ snd (components url).

Definition referer_of (url : pystr) : pystr :=
  domain_of url ++ u "/ershoufang/".

(** [random.choice(USER_AGENT_POOL)] raises on an empty pool; which
    element it picks does not change what follows. *)
Definition choose_user_agent : M unit :=
  match USER_AGENT_POOL with
  | [] => raise (Exn IndexError (u "Cannot choose from an empty sequence"))
  | _ => mret tt
  end.

(** The one-time warm-up request of a host; its exception is dropped.
    (The set is created empty on first use and replaced by a new empty
    set only while it is empty.) *)
Definition prewarm (url : pystr) : M unit :=
  seen ← warmed (domain_of url) ;
  if seen : bool then mret tt
  else
    get net (referer_of url) 6 None ;;
    mark_warmed (domain_of url).

Definition exhausted (url : pystr) (retries : Z) : pystr :=
  u "Failed to fetch detail page after " ++ u (pretty retries)
    ++ u " attempts: " ++ url.

(** The loop [for attempt in range(retries)] with [n] attempts left and
    the statements after it. *)
Fixpoint attempts (url : pystr) (retries : Z) (n : nat)
    (last_exc : option exn) : M pystr :=
  match n with
  | O =>
      match last_exc with
      | Some e => raise e
      | None => raise (Exn RuntimeError (exhausted url retries))
      end
  | S n' =>
      choose_user_agent ;;
      o ← get net url 8 (Some (referer_of url)) ;
      match o with
      | Responds r =>
          if (status_code r =? 200)%Z && truthy (text r) then
            if blocked (apparent_text r)
            then raise (Exn RuntimeError (u "Blocked by anti-bot verification"))
            else mret (apparent_text r)
          else
            sleep (Fin 1) (Fin 2) ;;
            attempts url retries n' last_exc
      | Fails m =>
          sleep (Fin 1) (Fin 2) ;;
          attempts url retries n' (Some (Exn RequestException m))
      end
  end.

Definition request_detail (url : pystr) (retries : Z) : M pystr :=
  match urlparse url with
  | Raise e => raise e
  | Return _ =>
      choose_user_agent ;;
      prewarm url ;;
      attempts url retries (Z.to_nat retries) None
  end.

End RequestDetail.

End DetailFetcher.

(** ** [detail_scraper.py]: the detail extractor *)

Module Detail.

Definition STATUS : pystr := u "解析状态".

Definition div_has (c : pystr) (n : node) : bool :=
  is_elem (u "div") n && class_has c n.

(** [div[contains(@class, "newwrap") and contains(@class, "baseinform")]] *)
Definition baseinform (n : node) : bool :=
  is_elem (u "div") n && class_has (u "newwrap") n && class_has (u "baseinform") n.

Definition nonempty (l : list pystr) : list pystr :=
  filter (fun s => truthy s = true) l.

(** Feature tags under the tag block. *)
Definition tags_step (tree : node) (d : gmap pystr pystr) : gmap pystr pystr :=
  let tags := nonempty (strip <$>
    (descend [(Child, is_elem (u "a")); (Desc, div_has (u "tags")); (Desc, baseinform)]
             is_text tree ≫= text_of)) in
  match tags with
  | [] => d
  | _ => <[u "房源标签" := join (u " | ") tags]> d
  end.

(** [div[contains(@class, "baseattribute") and div[@class="name"]]] *)
Definition is_section (n : node) : bool :=
  div_has (u "baseattribute") n
  && match child (u "div") (class_is (u "name")) [n] with
     | [] => false
     | _ => true
     end.

(** Titled sections, one key each. *)
Definition sections_step (tree : node) (d : gmap pystr pystr) : gmap pystr pystr :=
  foldl (fun d section =>
           let title := strip (concat
             (texts (child (u "div") (class_is (u "name")) [section]))) in
           let content := strip (concat
             (descend_in [(Desc, fun n => is_elem (u "div") n && class_is (u "content") n)]
                         is_text section ≫= text_of)) in
           if truthy title && truthy content then <[title := content]> d else d)
        d (descend [(Desc, baseinform)] is_section tree).

(** Transaction attributes: one key per pair and the combined field. *)
Definition transaction_step (tree : node) (d : gmap pystr pystr)
    : gmap pystr pystr :=
  let '(d, pairs) :=
    foldl (fun '(d, pairs) item =>
             let label := strip (concat
               (texts (child (u "span") (class_has (u "label")) [item]))) in
             let value := strip (concat
               (drop 1 (child (u "span") any [item]) ≫= all_texts)) in
             if truthy label && truthy value
             then (<[label := value]> d, pairs ++ [label ++ u ":" ++ value])
             else (d, pairs))
          (d, []) (descend [(Desc, div_has (u "transaction"))] (is_elem (u "li")) tree) in
  match pairs with
  | [] => d
  | _ => <[u "交易属性" := join (u " | ") pairs]> d
  end.

(** Layout rows, joined into one field. *)
Definition layout_step (tree : node) (d : gmap pystr pystr) : gmap pystr pystr :=
  let layout_items :=
    foldl (fun items layout_row =>
             let cols := nonempty
               ((fun col => strip (concat (all_texts col)))
                  <$> child (u "div") (class_has (u "col")) [layout_row]) in
             match cols with
             | [] => items
             | _ => items ++ [join (u " / ") cols]
             end)
          [] (descend [(Desc, div_has (u "layout-wrapper"))] (div_has (u "row")) tree) in
  match layout_items with
  | [] => d
  | _ => <[u "户型分间" := join (u " ; ") layout_items]> d
  end.

(** [parse_detail(html)], on the outcome of [etree.HTML(html)]. *)
Definition parse_detail_parsed (p : parsed) (html : pystr)
    : result (gmap pystr pystr) :=
  match p with
  | ParseRaises e => Raise e
  | ParseNone => Return ∅
  | ParseTree tree =>
      if contains (u "登录查看更多房源信息") html
         || contains (u "需登录后查看完整信息") html
      then Return {[ STATUS := u "login_required" ]}
      else Return (layout_step tree
                     (transaction_step tree
                        (sections_step tree (tags_step tree ∅))))
  end.

Section Parse.
Variable etree_HTML : pystr -> parsed.

Definition parse_detail (html : pystr) : result (gmap pystr pystr) :=
  parse_detail_parsed (etree_HTML html) html.
End Parse.

End Detail.

(** ** [detail_scraper.py]: rows, merging and the main loop *)

Module Merge.
Import Listing DetailFetcher Detail.

Definition BASE_COLUMNS : list pystr :=
  [u "标题"; u "地址"; u "户型"; u "面积"; u "朝向"; u "装修情况"; u "层数";
   u "建造时间"; u "楼型"; u "总价"; u "每平米单价"; u "关注人数"; u "带看次数";
   u "发布时间"; u "标签"; u "详情链接"].

Definition DETAIL_COLUMNS : list pystr :=
  [u "房源标签"; u "核心卖点"; u "小区介绍"; u "周边配套"; u "交通出行"; u "税费解析";
   u "权属抵押"; u "上次交易"; u "挂牌时间"; u "交易权属"; u "房屋用途"; u "房屋年限";
   u "产权所属"; u "抵押信息"; u "交易属性"; u "户型分间"].

Definition LINK : pystr := u "详情链接".

(** [d.get(key, '') or ''] *)
Definition get_or_empty (o : option pystr) : pystr := default [] o.

(** The dictionary [build_base_row(info)] builds. Every value of a listing
    is a string already, so the final conversion with [str] changes
    nothing. *)
Definition base_items (i : info) : list (pystr * pystr) :=
    [ (u "标题", get_or_empty (title i));
      (u "地址", location i);
      (u "户型", get_or_empty (details i !! u "configuration"));
      (u "面积", get_or_empty (details i !! u "area"));
      (u "朝向", get_or_empty (details i !! u "towards"));
      (u "装修情况", get_or_empty (details i !! u "decorate"));
      (u "层数", get_or_empty (details i !! u "storey"));
      (u "建造时间", get_or_empty (details i !! u "period"));
      (u "楼型", get_or_empty (details i !! u "categorie"));
      (u "总价", get_or_empty (total_price i));
      (u "每平米单价", get_or_empty (unit_price i));
      (u "关注人数", get_or_empty (follow_count i));
      (u "带看次数", get_or_empty (visit_count i));
      (u "发布时间", get_or_empty (publish_time i));
      (u "标签", join (u " | ") (tags i));
      (LINK, get_or_empty (link i)) ].

Definition build_base_row (i : info) : gmap pystr pystr :=
  list_to_map (base_items i).

(** [min_delay] and [max_delay] of [main]. *)
Definition delay_window (arg_min arg_max : pyfloat) : pyfloat * pyfloat :=
  let min_delay := py_max zero arg_min in
  let max_delay := py_max min_delay arg_max in
  (min_delay, max_delay).

(** [infos[:limit]] when a limit is given and is not zero. *)
Definition limited (limit : option Z) (infos : list info) : list info :=
  match limit with
  | Some l =>
      if (l =? 0)%Z then infos
      else if (0 <? l)%Z then take (Z.to_nat l) infos
      else take (length infos - Z.to_nat (- l)) infos
  | None => infos
  end.

Section Gbk.
(** Whether [char.encode("GBK")] succeeds. *)
Variable gbk : N -> bool.

Definition filtrate (data : pystr) : pystr := filter (fun c => gbk c = true) data.

(** [merge_detail(row, detail_data)], returning the row it updates. The
    values of a detail record are strings, so of the three cases of the
    loop body only the string one applies. *)
Definition merge_detail (row detail_data : gmap pystr pystr)
    : gmap pystr pystr :=
  let row := match detail_data !! STATUS with
             | Some s => <[STATUS := s]> row
             | None => row
             end in
  foldl (fun row column =>
           <[column := filtrate (strip (default [] (detail_data !! column)))]> row)
        row DETAIL_COLUMNS.

Definition headers : list pystr := BASE_COLUMNS ++ DETAIL_COLUMNS ++ [STATUS].

(** The row [write_csv] hands to the CSV writer: every header is given a
    default of [''] and every value is filtered. *)
Definition csv_row (row : gmap pystr pystr) : gmap pystr pystr :=
  foldl (fun row column =>
           <[column := filtrate (default [] (row !! column))]> row)
        row headers.

Definition write_csv (rows : list (gmap pystr pystr))
    : list (gmap pystr pystr) :=
  csv_row <$> rows.

Section Loop.
Variable net : nat -> pystr -> outcome.
Variable urlparse : pystr -> result (pystr * pystr).
Variable USER_AGENT_POOL : list pystr.
Variable etree_HTML : pystr -> parsed.
Variables min_delay max_delay : pyfloat.
(** The characters beyond ASCII that the console can encode. *)
Variable console : N -> bool.
(** [random.uniform(a, b)] *)
Variable uniform : pyfloat -> pyfloat -> pyfloat.
(** The longest sleep the clock accepts, in seconds. *)
Variable clock_max : Q.

(** [print(text, flush=True)] raises when the console cannot encode a
    character of the text; ASCII text it always encodes. *)
Definition print (text : pystr) : M unit :=
  if forallb (fun c => (c <? 128) || console c) text then mret tt
  else raise (Exn UnicodeEncodeError (u "codec can't encode characters")).

(** The [try] block of the loop body and its handler: the row they leave
    and the [status] they set for the console. *)
Definition fetch_detail (row : gmap pystr pystr) (url : pystr)
    : M (gmap pystr pystr * pystr) :=
  try_except
    (html ← request_detail net urlparse USER_AGENT_POOL url 3 ;
     detail_data ← lift (parse_detail etree_HTML html) ;
     mret (merge_detail row detail_data, u "ok"))
    (fun exc => mret (<[STATUS := take 120 (u "failed: " ++ msg exc)]> row,
                      u "failed (" ++ msg exc ++ u ")")).

(** The row the [try] block and its handler leave. *)
Definition enrich (row : gmap pystr pystr) (url : pystr)
    : M (gmap pystr pystr) :=
  r ← fetch_detail row url ;
  mret (fst r).

(** The body of [for index, info in enumerate(infos, start=1)];
    [last] is [index == len(infos)]. The counter that starts every printed
    line is made of ASCII digits and brackets and is left out of the lines. *)
Definition process (i : info) (last : bool) : M (gmap pystr pystr) :=
  let row := build_base_row i in
  let url := default [] (row !! LINK) in
  if truthy url then
    r ← fetch_detail row url ;
    print (url ++ u " -> " ++ snd r) ;;
    (if last then mret tt
     else sleep_secs clock_max (uniform min_delay max_delay) min_delay max_delay) ;;
    mret (fst r)
  else
    print (u "Skipping entry without detail link") ;;
    mret row.

Fixpoint main_loop (infos : list info) : M (list (gmap pystr pystr)) :=
  match infos with
  | [] => mret []
  | i :: rest =>
      row ← process i (bool_decide (rest = [])) ;
      rows ← main_loop rest ;
      mret (row :: rows)
  end.
End Loop.

(** [main], from the parsed arguments and the loaded listings to the rows
    written. *)
Definition main (net : nat -> pystr -> outcome)
    (urlparse : pystr -> result (pystr * pystr)) (USER_AGENT_POOL : list pystr)
    (etree_HTML : pystr -> parsed) (console : N -> bool)
    (uniform : pyfloat -> pyfloat -> pyfloat) (clock_max : Q)
    (arg_min arg_max : pyfloat)
    (limit : option Z) (infos : list info) : M (list (gmap pystr pystr)) :=
  let '(min_delay, max_delay) := delay_window arg_min arg_max in
  rows ← main_loop net urlparse USER_AGENT_POOL etree_HTML
                   min_delay max_delay console uniform clock_max
                   (limited limit infos) ;
  mret (write_csv rows).
End Gbk.

End Merge.

(** ** Vocabulary of the statements *)

Module Props.
Import DetailFetcher PageFetcher.

(** The state of a fresh process. *)
Definition start : world := {| prewarmed := ∅; calls := 0; trace := [] |}.

(** A run of [request_detail] calls in one process, each caller keeping
    the body or the exception of its call. *)
Fixpoint session_calls (net : nat -> pystr -> outcome)
    (urlparse : pystr -> result (pystr * pystr)) (pool : list pystr)
    (cs : list (pystr * Z)) : M (list (result pystr)) :=
  match cs with
  | [] => mret []
  | (url, retries) :: rest =>
      r ← try_except (body ← request_detail net urlparse pool url retries ;
                      mret (Return body))
                     (fun e => mret (Raise e)) ;
      rs ← session_calls net urlparse pool rest ;
      mret (r :: rs)
  end.

(** The warm-up request of a host: a GET of its listing root, sent with
    the warm-up headers (no Referer) and the warm-up timeout. *)
Definition is_warmup (domain : pystr) (e : event) : bool :=
  match e with
  | EvGet url timeout None =>
      bool_decide (url = domain ++ u "/ershoufang/") && (timeout =? 6)%Z
  | _ => false
  end.

Definition warmups (domain : pystr) (tr : list event) : nat :=
  length (filter (fun e => is_warmup domain e = true) tr).

(** An attempt of [request_detail] that the loop passes over: a network
    exception, a status other than 200 or an empty body. *)
Definition passed_over (o : outcome) : bool :=
  match o with
  | Fails _ => true
  | Responds r => negb ((status_code r =? 200)%Z && truthy (text r))
  end.

(** A successful attempt of [request_detail]: 200, non-empty, unblocked. *)
Definition succeeds (o : outcome) : option pystr :=
  match o with
  | Responds r =>
      if (status_code r =? 200)%Z && truthy (text r)
         && negb (blocked (apparent_text r))
      then Some (apparent_text r) else None
  | Fails _ => None
  end.

(** A body the Guard rejects, on an attempt that is otherwise good. *)
Definition is_blocked (o : outcome) : bool :=
  match o with
  | Responds r =>
      (status_code r =? 200)%Z && truthy (text r) && blocked (apparent_text r)
  | Fails _ => false
  end.

(** The network exception of an attempt, if it raised one. *)
Definition net_error (o : outcome) : option exn :=
  match o with
  | Fails m => Some (Exn RequestException m)
  | Responds _ => None
  end.

(** The last network exception among the outcomes [os], oldest first. *)
Definition last_net_error (os : list outcome) : option exn :=
  last (omap net_error os).

(** An attempt of [get_html] that raises: a network exception or a status
    that [raise_for_status] rejects. *)
Definition page_error (http_error : response -> pystr) (o : outcome)
    : option exn :=
  match o with
  | Fails m => Some (Exn RequestException m)
  | Responds r =>
      if raise_for_status r then Some (Exn RequestException (http_error r))
      else None
  end.

(** The state [k] requests and the events [tr] later. *)
Definition advance (w : world) (k : nat) (tr : list event) : world :=
  {| prewarmed := prewarmed w; calls := k + calls w; trace := trace w ++ tr |}.

(** The request of one attempt of [request_detail] and the sleep after a
    failed one. *)
Definition fetch (urlparse : pystr -> result (pystr * pystr)) (url : pystr) : event :=
  EvGet url 8 (Some (referer_of urlparse url)).

Definition jitter : event := EvSleep (Fin 1) (Fin 2).

(** The number of attempts on [url] that a log records. *)
Definition is_fetch (url : pystr) (e : event) : bool :=
  match e with
  | EvGet url' timeout (Some _) => bool_decide (url' = url) && (timeout =? 8)%Z
  | _ => false
  end.

Definition fetches (url : pystr) (tr : list event) : nat :=
  length (filter (fun e => is_fetch url e = true) tr).

(** The log of [n] attempts that were each followed by a sleep. *)
Definition retried (get : event) (pause : event) (n : nat) : list event :=
  mjoin (replicate n [get; pause]).

(** The outcomes of the [n] requests sent to [url] from request [c] on. *)
Definition outcomes (net : nat -> pystr -> outcome) (url : pystr)
    (c n : nat) : list outcome :=
  (fun j => net (j + c)%nat url) <$> seq 0 n.

(** The exception [request_detail] holds in [last_exc] once the attempts
    with outcomes [os] are over. *)
Definition last_or (last_exc : option exn) (os : list outcome) : option exn :=
  match last_net_error os with
  | Some e => Some e
  | None => last_exc
  end.

(** The request of one attempt of [get_html] and the sleep between two. *)
Definition page_get (url : pystr) (headers : gmap pystr pystr) : event :=
  EvGet url 6 (headers !! u "Referer").

Definition page_pause : event := EvSleep (Fin (8 # 10)) (Fin (16 # 10)).

End Props.

(** ** Pages, networks and listings used in the examples *)

Import Listing PageFetcher DetailFetcher Detail Merge Props.

Definition el (tag class : string) (cs : list node) : node :=
  Elem (u tag) [(u "class", u class)] cs.

Definition page (items : list node) : node :=
  Elem (u "html") []
    [Elem (u "body") [] [el "div" "content" [el "ul" "sellListContent" items]]].

(** A listing item with every block the extractor reads. *)
Definition full_item : node :=
  Elem (u "li") []
    [el "div" "info clear"
       [el "div" "title" [Elem (u "a") [(u "href", u "https://x/1.html")] [Text (u "T")]];
        el "div" "flood" [el "div" "positionInfo" [Elem (u "a") [] [Text (u "A")];
                                                   Elem (u "a") [] [Text (u "B")]]];
        el "div" "address" [el "div" "houseInfo" [Text (u "2室1厅 | 89平米 | 南")]];
        el "div" "followInfo" [Text (u " 3人关注 ")];
        el "div" "tag" [el "span" "subway" [Text (u "近地铁")]];
        el "div" "priceInfo" [el "div" "totalPrice" [Elem (u "span") [] [Text (u "300")]];
                             Elem (u "div") [(u "class", u "unitPrice");
                                             (u "data-price", u "33000")] []]]].

(** A listing item that has a title but no address block. *)
Definition item_without_address : node :=
  Elem (u "li") []
    [el "div" "info clear"
       [el "div" "title" [Elem (u "a") [(u "href", u "https://x/2.html")] [Text (u "T")]]]].

(** A results page with no listing item. *)
Definition page_without_items : node :=
  Elem (u "html") [] [Elem (u "body") [] [el "div" "content" [Text (u "empty")]]].

Definition no_match : pystr → pystr → option pystr := fun _ _ => None.

(** A detail page with a tag, a titled section, a transaction attribute and
    a layout row. *)
Definition detail_tree : node :=
  Elem (u "html") []
    [Elem (u "body") []
       [el "div" "newwrap baseinform"
          [el "div" "tags clear" [Elem (u "a") [] [Text (u " 满五年 ")]];
           el "div" "baseattribute clear"
              [el "div" "name" [Text (u "核心卖点")];
               el "div" "content" [Text (u "南北通透")]]];
        el "div" "transaction"
          [Elem (u "ul") []
             [Elem (u "li") []
                [el "span" "label" [Text (u "挂牌时间")];
                 Elem (u "span") [] [Text (u "2020-01-01")]]]];
        el "div" "layout-wrapper"
          [el "div" "row" [el "div" "col" [Text (u "客厅")];
                           el "div" "col" [Text (u "20平米")]]]]].

Definition blocked_body : response :=
  {| status_code := 200; text := u "<html>访问验证</html>";
     apparent_text := u "<html>访问验证</html>" |}.

Definition lianjia (_ : pystr) : result (pystr * pystr) :=
  Return (u "https", u "bj.lianjia.com").

(** A [urlparse] that rejects a URL with an opening bracket and no closing
    one, as the library does. *)
Definition brackets_checked (url : pystr) : result (pystr * pystr) :=
  if contains (u "[") url && negb (contains (u "]") url)
  then Raise (Exn ValueError (u "Invalid IPv6 URL"))
  else lianjia url.

Definition detail_url : pystr := u "https://bj.lianjia.com/ershoufang/1.html".

Definition one_agent : list pystr := [u "Mozilla/5.0"].

Definition good_body : response :=
  {| status_code := 200; text := u "<html>ok</html>";
     apparent_text := u "<html>ok</html>" |}.

(** A network whose second request times out and whose third is blocked. *)
Definition timeout_then_blocked (i : nat) (_ : pystr) : outcome :=
  match i with
  | 1%nat => Fails (u "timed out")
  | _ => Responds blocked_body
  end.

(** A network whose second request times out and whose third is served. *)
Definition timeout_then_good (i : nat) (_ : pystr) : outcome :=
  match i with
  | 1%nat => Fails (u "timed out")
  | _ => Responds good_body
  end.

(** No host has more than one warm-up in the log, and a host that is not
    marked as warmed has none. *)
Definition warmed_once (w : world) : Prop :=
  ∀ d, (warmups d (trace w)
        ≤ if bool_decide (d ∈ prewarmed w) then 1 else 0)%nat.

(** A network whose first request, the warm-up, fails. *)
Definition warmup_fails (i : nat) (_ : pystr) : outcome :=
  match i with
  | O => Fails (u "connection refused")
  | _ => Responds good_body
  end.

(** A listing as [extract] leaves it when the title block is missing. *)
Definition unlinked : info :=
  {| title := None; location := u "A, B";
     details := {[ u "area" := u "89平米" ]};
     total_price := Some (u "300 万"); unit_price := None;
     follow_count := None; visit_count := None; publish_time := None;
     tags := [u "近地铁"]; follow_info := []; link := None |}.

Definition ascii_only (c : N) : bool := c <? 128.

(** A console that encodes every character. *)
Definition any_char (_ : N) : bool := true.

(** A draw at the lower end of the window. *)
Definition lower_end (a _ : pyfloat) : pyfloat := a.

(** A clock that counts nanoseconds in 63 bits. *)
Definition clock_limit : Q := 9223372036 # 1.

(** ** [session_config.py]: cookies *)

Module SessionConfig.

(** [s.split(c, 1)] on a string that holds the code point [c]: the text
    before its first occurrence and the text after it. *)
Fixpoint split_once (c : N) (s : pystr) : option (pystr * pystr) :=
  match s with
  | [] => None
  | a :: s' =>
      if a =? c then Some ([], s')
      else (fun kv => (a :: fst kv, snd kv)) <$> split_once c s'
  end.

(** The body of [for pair in raw.split(';')]. *)
Definition cookie_step (cookies : gmap pystr pystr) (pair : pystr)
    : gmap pystr pystr :=
  let pair := strip pair in
  if negb (truthy pair) || negb (contains (u "=") pair) then cookies
  else
    match split_once 61 pair with
    | Some (key, value) =>
        let key := strip key in
        let value := strip value in
        if truthy key then <[key := value]> cookies else cookies
    | None => cookies
    end.

(** [parse_cookie_string(raw)] *)
Definition parse_cookie_string (raw : option pystr) : gmap pystr pystr :=
  match raw with
  | None => ∅
  | Some r => if truthy r then foldl cookie_step ∅ (split (u ";") r) else ∅
  end.

End SessionConfig.

(** ** [main.py]: CSV rows and the crawl of a page range *)

Module Crawl.
Import Listing PageFetcher Merge.

Definition CSV_COLUMNS : list pystr :=
  [u "title"; u "location"; u "configuration"; u "area"; u "towards";
   u "decorate"; u "storey"; u "period"; u "categorie"; u "total_price";
   u "unit_price"; u "follow_count"; u "visit_count"; u "publish_time";
   u "tags"; u "link"].

Definition REQUEST_DELAY_RANGE : pyfloat * pyfloat := (Fin (12 # 10), Fin (28 # 10)).
Definition PAGE_DELAY_RANGE : pyfloat * pyfloat := (Fin (25 # 10), Fin (55 # 10)).

(** [column in names] *)
Definition among (column : pystr) (names : list pystr) : bool :=
  bool_decide (column ∈ names).

(** [info.get(column)] for the keys [info_to_row] reads at the top level of
    a listing; [None] is the absent or null value. *)
Definition info_get (i : info) (column : pystr) : option pystr :=
  if bool_decide (column = u "title") then title i
  else if bool_decide (column = u "location") then Some (location i)
  else if bool_decide (column = u "follow_count") then follow_count i
  else if bool_decide (column = u "visit_count") then visit_count i
  else if bool_decide (column = u "publish_time") then publish_time i
  else if bool_decide (column = u "link") then link i
  else None.

(** [price.get(column)] *)
Definition price_get (i : info) (column : pystr) : option pystr :=
  if bool_decide (column = u "total_price") then total_price i
  else if bool_decide (column = u "unit_price") then unit_price i
  else None.

Section Rows.
Variable gbk : N -> bool.

(** The cell [info_to_row] appends for one column. *)
Definition cell (i : info) (column : pystr) : pystr :=
  let value :=
    if among column [u "title"; u "location"; u "follow_count";
                     u "visit_count"; u "publish_time"; u "link"]
    then info_get i column
    else if bool_decide (column = u "tags") then Some (join (u " | ") (tags i))
    else if among column [u "total_price"; u "unit_price"] then price_get i column
    else details i !! column in
  match value with
  | Some s => filtrate gbk s
  | None => []
  end.

(** [info_to_row(info)] *)
Definition info_to_row (i : info) : list pystr := cell i <$> CSV_COLUMNS.
End Rows.

Section Pages.
Variable net : nat -> pystr -> outcome.
Variable PROFILE_USER_AGENT : pystr.
Variable USER_AGENTS : list pystr.
Variable http_error : response -> pystr.
Variable re_search : pystr -> pystr -> option pystr.
Variable etree_HTML : pystr -> parsed.
Variable gbk : N -> bool.
(** The element [random.choice] picks from a non-empty list. *)
Variable choice : list pystr -> pystr.

(** [f'https://{city}.lianjia.com/ershoufang/pg{page}/'] *)
Definition page_url (city : pystr) (page : Z) : pystr :=
  u "https://" ++ city ++ u ".lianjia.com/ershoufang/pg" ++ u (pretty page)
    ++ u "/".

(** [build_headers(city, page, preferred_user_agent)] *)
Definition build_headers (city : pystr) (page : Z) (preferred : option pystr)
    : M (gmap pystr pystr) :=
  let referer := page_url city page in
  let configured := str_or (default [] preferred) PROFILE_USER_AGENT in
  user_agent ← (if truthy configured then mret configured
                else match USER_AGENTS with
                     | [] => raise (Exn IndexError
                                      (u "Cannot choose from an empty sequence"))
                     | _ => mret (choice USER_AGENTS)
                     end) ;
  mret (list_to_map
          [ (u "User-Agent", user_agent);
            (u "Referer", referer);
            (u "Accept", u "text/html,application/xhtml+xml,application/xml;q=0.9,image/avif,image/webp,*/*;q=0.8");
            (u "Accept-Language", u "zh-CN,zh;q=0.9,en;q=0.8");
            (u "Connection", u "keep-alive");
            (u "Cache-Control", u "no-cache");
            (u "Pragma", u "no-cache") ]).

(** Truth value of what [extract] returns. *)
Definition found (page_info : option (list info)) : bool :=
  match page_info with
  | Some (_ :: _) => true
  | _ => false
  end.

(** One pass of the [try] block of a cycle, its exception reified. *)
Definition cycle (url : pystr) (headers : gmap pystr pystr)
    : M (result (option (list info))) :=
  try_except
    (html_code ← get_html net PROFILE_USER_AGENT USER_AGENTS http_error url
                          headers 3 (Some PROFILE_USER_AGENT) ;
     page_info ← lift (extract re_search etree_HTML html_code) ;
     mret (Return page_info))
    (fun exc => mret (Raise exc)).

(** The loop [for attempt in range(5)] with [n] cycles left; it yields the
    final values of [info] (here [page_info]) and [last_error]. *)
Fixpoint cycles (url : pystr) (headers : gmap pystr pystr) (n : nat)
    (page_info : option (list info)) (last_error : option exn)
    : M (option (list info) * option exn) :=
  match n with
  | O => mret (page_info, last_error)
  | S n' =>
      r ← cycle url headers ;
      match r with
      | Return page_info' =>
          if found page_info' then mret (page_info', last_error)
          else
            sleep (fst REQUEST_DELAY_RANGE) (snd REQUEST_DELAY_RANGE) ;;
            cycles url headers n' page_info' last_error
      | Raise exc =>
          sleep (fst REQUEST_DELAY_RANGE) (snd REQUEST_DELAY_RANGE) ;;
          cycles url headers n' page_info (Some exc)
      end
  end.

(** The body of the loop over the pages: [acc] holds the listings gathered
    so far and the rows written to the CSV file so far. *)
Definition crawl_page (city : pystr) (acc : list info * list (list pystr))
    (page : Z) : M (list info * list (list pystr)) :=
  headers ← build_headers city page (Some PROFILE_USER_AGENT) ;
  r ← cycles (page_url city page) headers 5 None None ;
  if found (fst r) then
    let rows := info_to_row gbk <$> default [] (fst r) in
    sleep (fst PAGE_DELAY_RANGE) (snd PAGE_DELAY_RANGE) ;;
    mret (fst acc ++ default [] (fst r), snd acc ++ rows)
  else mret acc.



End Pages.

End Crawl.

(** ** Vocabulary of the further statements *)

Module Props2.
Import Listing PageFetcher Merge Crawl Props.

(** A row whose keys are all field names of the CSV writer, which rejects
    any other key. *)
Definition row_ok (row : gmap pystr pystr) : Prop :=
  ∀ k, is_Some (row !! k) → k ∈ headers.

(** A stripped string: no white space at either end. *)
Definition stripped (s : pystr) : Prop := strip s = s.

(** The address text of a listing item, as [extract] reads it. *)
Definition address_texts (li : node) : list pystr :=
  texts (child (u "div") any
          (child (u "div") (class_is (u "address")) (div_info [li]))).

(** The exception of iterating [None]. *)
Definition not_iterable : exn :=
  Exn TypeError (u "'NoneType' object is not iterable").

(** [f"failed: {exc}"[:120]] *)
Definition failure (e : exn) : pystr := take 120 (u "failed: " ++ msg e).

(** The login markers of a detail page. *)
Definition login_marked (html : pystr) : bool :=
  contains (u "登录查看更多房源信息") html || contains (u "需登录后查看完整信息") html.

(** The sleep after a cycle of the crawl that found nothing. *)
Definition cycle_pause : event :=
  EvSleep (fst REQUEST_DELAY_RANGE) (snd REQUEST_DELAY_RANGE).

(** The log of [k] requests of [get_html] with a sleep between two of them
    and none at the end. *)
Definition page_log (get : event) (k : nat) : list event :=
  match k with
  | O => []
  | S k' => retried get page_pause k' ++ [get]
  end.

(** A response on which a cycle of the crawl finds no listing: the status
    passes, and [extract] raises or returns nothing. *)
Definition fruitless (re_search : pystr -> pystr -> option pystr)
    (etree_HTML : pystr -> parsed) (o : outcome) : Prop :=
  ∃ r, o = Responds r
       ∧ raise_for_status r = false
       ∧ match extract re_search etree_HTML (text r) with
         | Return page_info => found page_info = false
         | Raise _ => True
         end.

(** A User-Agent can be found for the crawl: one is configured, or the
    list to pick from is not empty. *)
Definition configured (profile : pystr) (agents : list pystr) : Prop :=
  truthy profile = true ∨ agents ≠ [].

(** A record without empty key and without empty value. *)
Definition filled (d : gmap pystr pystr) : Prop :=
  ∀ k v, d !! k = Some v → k ≠ [] ∧ v ≠ [].

End Props2.

Import SessionConfig Crawl Props2.

(** The record [extract] builds for [full_item] when no metric matches. *)
Definition full_record : info :=
  {| title := Some (u "T"); location := u "A, B";
     details := <[u "towards" := u "南"]>
                (<[u "area" := u "89平米"]>
                 (<[u "configuration" := u "2室1厅"]> ∅));
     total_price := Some (u "300 万");
     unit_price := Some (u "33000 元");
     follow_count := None; visit_count := None;
     publish_time := None; tags := [u "近地铁"];
     follow_info := u "3人关注";
     link := Some (u "https://x/1.html") |}.

(** A listing whose link ends with a lone surrogate, a code point no
    console encoding holds. *)
Definition surrogate_record : info :=
  {| title := Some (u "T"); location := u "A, B"; details := ∅;
     total_price := None; unit_price := None;
     follow_count := None; visit_count := None;
     publish_time := None; tags := []; follow_info := [];
     link := Some (u "https://x/" ++ [56448]) |}.

(** A draw that is infinite. *)
Definition endless (_ _ : pyfloat) : pyfloat := PosInf.

(** The detail record of [detail_tree]. *)
Definition detail_record : gmap pystr pystr :=
  <[u "户型分间" := u "客厅 / 20平米"]>
  (<[u "交易属性" := u "挂牌时间:2020-01-01"]>
   (<[u "挂牌时间" := u "2020-01-01"]>
    (<[u "核心卖点" := u "南北通透"]>
     (<[u "房源标签" := u "满五年"]> ∅)))).

(** A login-gated detail page. *)
Definition login_body : response :=
  {| status_code := 200; text := u "<p>需登录后查看完整信息</p>";
     apparent_text := u "<p>需登录后查看完整信息</p>" |}.

(** A network that gives the same response to every request. *)
Definition always (r : response) (_ : nat) (_ : pystr) : outcome := Responds r.

Definition first_agent (agents : list pystr) : pystr := default [] (head agents).

Definition no_text (_ : response) : pystr := [].

(** * Properties *)

(** ** Strings *)

Example u_ascii : u "ok" = [111; 107].
Proof. reflexivity. Qed.

Example u_cjk : u "层" = [23618].
Proof. reflexivity. Qed.

Example contains_ex : contains (u "平米") (u "89.5平米") = true.
Proof. reflexivity. Qed.

Example split_ex :
  split (u " | ") (u "2室1厅 | 89平米 | 南") = [u "2室1厅"; u "89平米"; u "南"].
Proof. vm_compute. reflexivity. Qed.

Example strip_ex : strip (u "  a b  ") = u "a b".
Proof. reflexivity. Qed.

(** ** Classification of the configuration details *)

Example categorise_ex :
  categorise (Some [u "2室1厅"; u "89.5平米"; u "南 北"; u "精装"]) =
  Return (<[u "decorate" := u "精装"]>
          (<[u "towards" := u "南 北"]>
           (<[u "area" := u "89.5平米"]>
            (<[u "configuration" := u "2室1厅"]> ∅)))).
Proof. vm_compute. reflexivity. Qed.

Section CategoriseLoops.
Variable table : list (pystr * list pystr).

Lemma scan_values_lookup (detail key : pystr) (values : list pystr)
    (res : gmap pystr pystr) (k : pystr) :
  scan_values detail key values res !! k =
  if bool_decide (key = k) && existsb (fun value => contains value detail) values
  then Some detail else res !! k.
Proof.
  unfold scan_values. revert res.
  induction values as [|v vs IH]; intros res; simpl.
  - by rewrite andb_false_r.
  - rewrite IH. destruct (contains v detail) eqn:Hv; simpl.
    + case_bool_decide as Hk; simpl.
      * subst. destruct (existsb _ vs); [done|]. by rewrite lookup_insert_eq.
      * by rewrite lookup_insert_ne.
    + done.
Qed.

Lemma scan_features_lookup (res : gmap pystr pystr) (detail k : pystr) :
  scan_features table res detail !! k =
  if matchesb table k detail then Some detail else res !! k.
Proof.
  unfold scan_features, matchesb. revert res.
  induction table as [|[key values] t IH]; intros res; simpl; [done|].
  rewrite IH, scan_values_lookup.
  destruct (existsb _ t); [by rewrite orb_true_r|].
  by rewrite orb_false_r.
Qed.

Lemma scan_details_from (res : gmap pystr pystr) (details : list pystr)
    (k : pystr) :
  foldl (scan_features table) res details !! k =
  match last (filter (fun d => matchesb table k d = true) details) with
  | Some d => Some d
  | None => res !! k
  end.
Proof.
  revert res. induction details as [|d ds IH]; intros res; simpl; [done|].
  rewrite IH, scan_features_lookup.
  destruct (matchesb table k d) eqn:Hd.
  - rewrite filter_cons_True by done. rewrite last_cons.
    by destruct (last _).
  - rewrite filter_cons_False; [done|]. by rewrite Hd.
Qed.

Lemma scan_details_lookup (details : list pystr) (k : pystr) :
  scan_details table details !! k =
  last (filter (fun d => matchesb table k d = true) details).
Proof.
  unfold scan_details. rewrite scan_details_from, lookup_empty.
  by destruct (last _).
Qed.
End CategoriseLoops.

Lemma matches_matchesb (key detail : pystr) :
  matches key detail ↔ matchesb features key detail = true.
Proof.
  unfold matches, matchesb. rewrite existsb_exists. split.
  - intros (values & value & Hk & Hv & Hc). exists (key, values). split.
    + by apply list_elem_of_In.
    + simpl. rewrite bool_decide_eq_true_2 by done. simpl.
      apply existsb_exists. exists value. split; [by apply list_elem_of_In|done].
  - intros ([k values] & Hin & Hb). simpl in Hb.
    apply andb_true_iff in Hb as [Hk Hv]. apply bool_decide_eq_true in Hk. subst k.
    apply existsb_exists in Hv as (value & Hv & Hc).
    exists values, value. split; [by apply list_elem_of_In|].
    split; [by apply list_elem_of_In|done].
Qed.

Lemma last_filter_elem {A} (P : A -> Prop) `{∀ x, Decision (P x)} (l : list A) x :
  last (filter P l) = Some x → x ∈ l ∧ P x.
Proof.
  intros Hl. assert (x ∈ filter P l) as Hx.
  { apply last_Some in Hl as [l' ->]. set_solver. }
  by apply list_elem_of_filter in Hx as [? ?].
Qed.

Lemma last_filter_app {A} (P : A -> Prop) `{∀ x, Decision (P x)} (l1 l2 : list A) x :
  P x → (∀ y, y ∈ l2 → ¬ P y) → last (filter P (l1 ++ x :: l2)) = Some x.
Proof.
  intros Hx Hl2. rewrite filter_app, filter_cons_True by done.
  replace (filter P l2) with (@nil A).
  - by rewrite last_snoc.
  - symmetry. induction l2 as [|y l2 IH]; [done|].
    rewrite filter_cons_False by (apply Hl2; set_solver).
    apply IH. intros z Hz. apply Hl2. set_solver.
Qed.

(** C4. For every list of segments [categorise] returns a map in which an
    attribute holds a segment only if that segment is in the list and
    contains one of the attribute's keywords, and in which an attribute
    matched by several segments holds the last of them. *)
Theorem categorise_last_match_wins (details : list pystr) :
  ∃ res, categorise (Some details) = Return res
    ∧ (∀ key d, res !! key = Some d → d ∈ details ∧ matches key d)
    ∧ (∀ key l1 d l2,
         details = l1 ++ d :: l2 → matches key d →
         (∀ d', d' ∈ l2 → ¬ matches key d') →
         res !! key = Some d).
Proof.
  exists (scan_details features details). split; [done|]. split.
  - intros key d. rewrite scan_details_lookup. intros Hl.
    apply last_filter_elem in Hl as [Hin Hm].
    split; [done|]. by apply matches_matchesb.
  - intros key l1 d l2 -> Hd Hl2. rewrite scan_details_lookup.
    apply last_filter_app.
    + by apply matches_matchesb.
    + intros y Hy Hm. apply (Hl2 y Hy). by apply matches_matchesb.
Qed.

Lemma categorise_last_match_wins_witness :
  ∃ res, categorise (Some [u "低楼层"; u "高楼层"]) = Return res
         ∧ res !! u "storey" = Some (u "高楼层").
Proof.
  destruct (categorise_last_match_wins [u "低楼层"; u "高楼层"])
    as (res & Hres & _ & Hlast).
  exists res. split; [exact Hres|].
  apply (Hlast (u "storey") [u "低楼层"] (u "高楼层") []).
  - reflexivity.
  - exists [u "层"], (u "层"). split; [|split].
    + do 4 apply list_elem_of_further. apply list_elem_of_here.
    + apply list_elem_of_here.
    + reflexivity.
  - intros d' Hd'. by apply elem_of_nil in Hd'.
Defined.

(** ** The delay window of the detail run *)

Lemma gt_le (a b : pyfloat) : gt b a = true → le a b = true.
Proof.
  destruct a as [| |x|], b as [| |y|]; simpl; try done.
  intros H. apply negb_true_iff in H.
  apply Qle_bool_iff. apply Qlt_le_weak. apply Qnot_le_lt.
  intros Hle. apply Qle_bool_iff in Hle. congruence.
Qed.

Lemma le_refl (a : pyfloat) : a ≠ NaN → le a a = true.
Proof.
  destruct a as [| |x|]; simpl; try done.
  intros _. apply Qle_bool_iff. apply Qle_refl.
Qed.

Lemma py_max_not_nan (a b : pyfloat) : a ≠ NaN → py_max a b ≠ NaN.
Proof.
  unfold py_max. intros Ha. destruct (gt b a) eqn:Hg; [|done].
  intros ->. by destruct a.
Qed.

Lemma py_max_le (a b : pyfloat) : a ≠ NaN → le a (py_max a b) = true.
Proof.
  unfold py_max. intros Ha. destruct (gt b a) eqn:Hg.
  - by apply gt_le.
  - by apply le_refl.
Qed.

Lemma py_max_Qmax (x y : Q) : py_max (Fin x) (Fin y) = Fin (Qmax x y).
Proof.
  unfold py_max, Qmax, GenericMinMax.gmax. simpl.
  destruct (Qcompare x y) eqn:Hc.
  - apply Qeq_alt in Hc.
    assert (Qle_bool y x = true) as ->; [|done].
    apply Qle_bool_iff. rewrite Hc. apply Qle_refl.
  - apply Qlt_alt in Hc.
    assert (Qle_bool y x = false) as ->; [|done].
    apply not_true_is_false. intros H. apply Qle_bool_iff in H.
    by apply (Qlt_not_le x y).
  - apply Qgt_alt in Hc.
    assert (Qle_bool y x = true) as ->; [|done].
    apply Qle_bool_iff. by apply Qlt_le_weak.
Qed.

Example delay_window_default :
  delay_window (Fin (6 # 10)) (Fin (16 # 10)) = (Fin (6 # 10), Fin (16 # 10)).
Proof. reflexivity. Qed.

Example delay_window_swapped :
  delay_window (Fin 3) (Fin (-1)) = (Fin 3, Fin 3).
Proof. reflexivity. Qed.

Example delay_window_nan : delay_window NaN NaN = (zero, zero).
Proof. reflexivity. Qed.

(** C9. Whatever the two delay arguments are (negative, swapped, infinite
    or not a number), the window [main] sleeps in satisfies
    [0 <= min_delay <= max_delay]; [min_delay] is [max(0.0, arg_min)] and
    [max_delay] is [max(min_delay, arg_max)], which on finite arguments are
    the mathematical maxima. *)
Theorem delay_window_normalised (arg_min arg_max : pyfloat) (x y : Q) :
  le zero (delay_window arg_min arg_max).1 = true
  ∧ le (delay_window arg_min arg_max).1 (delay_window arg_min arg_max).2 = true
  ∧ (delay_window arg_min arg_max).1 = py_max zero arg_min
  ∧ (delay_window arg_min arg_max).2
      = py_max (delay_window arg_min arg_max).1 arg_max
  ∧ delay_window (Fin x) (Fin y)
      = (Fin (Qmax 0 x), Fin (Qmax (Qmax 0 x) y)).
Proof.
  unfold delay_window; cbn [fst snd].
  assert (py_max zero arg_min ≠ NaN) as Hn by (by apply py_max_not_nan).
  split; [by apply py_max_le|].
  split; [by apply py_max_le|].
  split; [done|]. split; [done|].
  unfold zero. by rewrite !py_max_Qmax.
Qed.

(** ** Merging a detail record into a row *)

Lemma foldl_insert_lookup (f : pystr → pystr) (cols : list pystr)
    (row : gmap pystr pystr) (c : pystr) :
  foldl (fun r column => <[column := f column]> r) row cols !! c =
  if bool_decide (c ∈ cols) then Some (f c) else row !! c.
Proof.
  revert row. induction cols as [|k cols IH]; intros row; simpl; [done|].
  rewrite IH. case_bool_decide as Hc.
  - rewrite bool_decide_eq_true_2; [done|by apply list_elem_of_further].
  - destruct (decide (k = c)) as [->|Hk].
    + rewrite lookup_insert_eq.
      rewrite bool_decide_eq_true_2; [done|apply list_elem_of_here].
    + rewrite lookup_insert_ne by done.
      rewrite bool_decide_eq_false_2; [done|].
      apply not_elem_of_cons. split; [congruence|done].
Qed.

Example detail_columns_count : length DETAIL_COLUMNS = 16%nat ∧ NoDup DETAIL_COLUMNS.
Proof. split; [reflexivity|]. apply (bool_decide_unpack _). vm_compute. exact I. Qed.

(** C10. After [merge_detail] the row maps each of the 16 detail columns to
    a string: the stripped, GBK-filtered value of the detail record when it
    has that key, and the empty string when it has not. *)
Theorem merge_detail_fills_columns (gbk : N → bool)
    (row detail_data : gmap pystr pystr) (column : pystr) :
  column ∈ DETAIL_COLUMNS →
  length DETAIL_COLUMNS = 16%nat
  ∧ (∀ value, detail_data !! column = Some value →
       merge_detail gbk row detail_data !! column
         = Some (filtrate gbk (strip value)))
  ∧ (detail_data !! column = None →
       merge_detail gbk row detail_data !! column = Some []).
Proof.
  intros Hc. split; [reflexivity|].
  unfold merge_detail.
  rewrite (foldl_insert_lookup
             (fun column => filtrate gbk (strip (default [] (detail_data !! column))))).
  rewrite bool_decide_eq_true_2 by done.
  split.
  - by intros value ->.
  - by intros ->.
Qed.

Lemma merge_detail_fills_columns_witness :
  u "核心卖点" ∈ DETAIL_COLUMNS
  ∧ merge_detail (fun c => c <? 128) ∅ {[ u "核心卖点" := u " ok " ]} !! u "核心卖点"
      = Some (u "ok").
Proof.
  assert (u "核心卖点" ∈ DETAIL_COLUMNS) as Hin.
  { apply (bool_decide_unpack _). vm_compute. exact I. }
  split; [exact Hin|].
  destruct (merge_detail_fills_columns (fun c => c <? 128) ∅
              {[ u "核心卖点" := u " ok " ]} (u "核心卖点") Hin) as (_ & Hsome & _).
  rewrite (Hsome (u " ok ")).
  - vm_compute. reflexivity.
  - vm_compute. reflexivity.
Defined.

(** ** The listing extractor *)

Example extract_full_item :
  extract_parsed no_match (ParseTree (page [full_item])) =
  Return (Some [ {| title := Some (u "T"); location := u "A, B";
                    details := <[u "towards" := u "南"]>
                               (<[u "area" := u "89平米"]>
                                (<[u "configuration" := u "2室1厅"]> ∅));
                    total_price := Some (u "300 万");
                    unit_price := Some (u "33000 元");
                    follow_count := None; visit_count := None;
                    publish_time := None; tags := [u "近地铁"];
                    follow_info := u "3人关注";
                    link := Some (u "https://x/1.html") |} ]).
Proof. vm_compute. reflexivity. Qed.

Lemma extract_item_address (re_search : pystr → pystr → option pystr) (li : node) :
  texts (child (u "div") any
          (child (u "div") (class_is (u "address")) (div_info [li]))) = [] →
  extract_item re_search li
    = Raise (Exn TypeError (u "'NoneType' object is not iterable")).
Proof.
  intros Hd. unfold extract_item. rewrite Hd. simpl.
  by destruct (metrics re_search _) as [[? ?] ?].
Qed.

(** C2. On a results page whose only listing item has no address block,
    [extract] does not produce a record with an empty field: the item's
    missing details reach [categorise] as [None] and the call ends with a
    [TypeError]. *)
Theorem extract_item_without_address_raises
    (re_search : pystr → pystr → option pystr) :
  li_list (page [item_without_address]) = [item_without_address]
  ∧ extract_item re_search item_without_address
      = Raise (Exn TypeError (u "'NoneType' object is not iterable"))
  ∧ extract_parsed re_search (ParseTree (page [item_without_address]))
      = Raise (Exn TypeError (u "'NoneType' object is not iterable"))
  ∧ extract_parsed re_search (ParseTree (page [full_item; item_without_address]))
      = Raise (Exn TypeError (u "'NoneType' object is not iterable")).
Proof.
  split; [vm_compute; reflexivity|]. split; [vm_compute; reflexivity|].
  split; vm_compute; reflexivity.
Qed.




(** ** The detail extractor *)

Example parse_detail_fields :
  parse_detail_parsed (ParseTree detail_tree) (u "<html>...</html>") =
  Return (<[u "户型分间" := u "客厅 / 20平米"]>
          (<[u "交易属性" := u "挂牌时间:2020-01-01"]>
           (<[u "挂牌时间" := u "2020-01-01"]>
            (<[u "核心卖点" := u "南北通透"]>
             (<[u "房源标签" := u "满五年"]> ∅))))).
Proof. vm_compute. reflexivity. Qed.

(** C5 as stated fails: a body that holds a login marker and that the
    parser turns into no document gives the empty record, without the
    status. *)
Lemma login_marker_without_root_gives_empty :
  contains (u "登录查看更多房源信息") (u "<!-- 登录查看更多房源信息 -->") = true
  ∧ parse_detail (fun _ => ParseNone) (u "<!-- 登录查看更多房源信息 -->")
    = Return ∅
  ∧ (∅ : gmap pystr pystr) !! STATUS = None
  ∧ (∅ : gmap pystr pystr) ≠ {[ STATUS := u "login_required" ]}.
Proof.
  split; [vm_compute; reflexivity|]. split; [reflexivity|].
  split; [reflexivity|]. intros H.
  apply (f_equal (fun m : gmap pystr pystr => m !! STATUS)) in H.
  by rewrite lookup_empty, lookup_singleton_eq in H.
Qed.

(** C5, amended. For every body that contains one of the two login markers:
    when the parser turns the body into a tree, [parse_detail] returns the
    record whose only key is the status, with value [login_required],
    whatever else the tree holds; when the parser gives no document, it
    returns the empty record; when the parser raises, [parse_detail] raises
    the same exception. *)
Theorem parse_detail_login_required (etree_HTML : pystr → parsed)
    (html : pystr) :
  contains (u "登录查看更多房源信息") html = true
  ∨ contains (u "需登录后查看完整信息") html = true →
  (∀ tree, etree_HTML html = ParseTree tree →
     ∃ d : gmap pystr pystr,
       parse_detail etree_HTML html = Return d
       ∧ d = {[ STATUS := u "login_required" ]}
       ∧ d !! STATUS = Some (u "login_required")
       ∧ ∀ k, k ≠ STATUS → d !! k = None)
  ∧ (etree_HTML html = ParseNone → parse_detail etree_HTML html = Return ∅)
  ∧ (∀ e, etree_HTML html = ParseRaises e →
          parse_detail etree_HTML html = Raise e).
Proof.
  intros Hm. unfold parse_detail, parse_detail_parsed. split; [|split].
  - intros tree Hp. exists {[ STATUS := u "login_required" ]}.
    split; [|split; [done|split]].
    + rewrite Hp. destruct Hm as [-> | ->]; [done|]. by rewrite orb_true_r.
    + apply lookup_singleton_eq.
    + intros k Hk. by apply lookup_singleton_ne.
  - intros Hp. by rewrite Hp.
  - intros e Hp. by rewrite Hp.
Qed.

Lemma parse_detail_login_required_witness :
  ∃ d : gmap pystr pystr,
    parse_detail (fun _ => ParseTree detail_tree)
                 (u "<p>需登录后查看完整信息</p>") = Return d
    ∧ d = {[ STATUS := u "login_required" ]}
    ∧ d !! STATUS = Some (u "login_required")
    ∧ ∀ k, k ≠ STATUS → d !! k = None.
Proof.
  refine (proj1 (parse_detail_login_required (fun _ => ParseTree detail_tree)
                   (u "<p>需登录后查看完整信息</p>") _) detail_tree _).
  - right. vm_compute. reflexivity.
  - reflexivity.
Defined.

(** ** The effects of the fetchers *)

Lemma advance_advance (w : world) (a b : nat) (t1 t2 : list event) :
  advance (advance w a t1) b t2 = advance w (b + a) (t1 ++ t2).
Proof.
  unfold advance; simpl. f_equal; [lia|]. by rewrite <- app_assoc.
Qed.

Lemma advance_0 (w : world) : advance w 0 [] = w.
Proof. destruct w. unfold advance; simpl. by rewrite app_nil_r. Qed.

Lemma bind_get {A} (net : nat → pystr → outcome) (url : pystr) (t : Z)
    (r : option pystr) (k : outcome → M A) (w : world) :
  (get net url t r ≫= k) w = k (net (calls w) url) (advance w 1 [EvGet url t r]).
Proof. reflexivity. Qed.

Lemma bind_sleep {A} (lo hi : pyfloat) (k : unit → M A) (w : world) :
  (sleep lo hi ≫= k) w = k tt (advance w 0 [EvSleep lo hi]).
Proof. reflexivity. Qed.

Section DetailFetcherFacts.
Variable net : nat → pystr → outcome.
Variable urlparse : pystr → result (pystr * pystr).
Variable pool : list pystr.
Hypothesis pool_nonempty : pool ≠ [].

Lemma bind_choose {A} (k : unit → M A) (w : world) :
  (choose_user_agent pool ≫= k) w = k tt w.
Proof. unfold choose_user_agent. by destruct pool. Qed.

Lemma attempts_S (url : pystr) (retries : Z) (n : nat) (last_exc : option exn)
    (w : world) :
  attempts net urlparse pool url retries (S n) last_exc w =
  match net (calls w) url with
  | Responds r =>
      if (status_code r =? 200)%Z && truthy (text r) then
        if blocked (apparent_text r)
        then (Raise (Exn RuntimeError (u "Blocked by anti-bot verification")),
              advance w 1 [fetch urlparse url])
        else (Return (apparent_text r), advance w 1 [fetch urlparse url])
      else attempts net urlparse pool url retries n last_exc
             (advance w 1 [fetch urlparse url; jitter])
  | Fails m =>
      attempts net urlparse pool url retries n (Some (Exn RequestException m))
        (advance w 1 [fetch urlparse url; jitter])
  end.
Proof.
  cbn [attempts]. rewrite bind_choose, bind_get.
  destruct (net (calls w) url) as [r|m].
  - destruct ((status_code r =? 200)%Z && truthy (text r)).
    + by destruct (blocked (apparent_text r)).
    + rewrite bind_sleep. by rewrite advance_advance.
  - rewrite bind_sleep. by rewrite advance_advance.
Qed.

Lemma prewarm_returns (url : pystr) (w : world) :
  prewarm net urlparse url w =
  (Return tt,
   if bool_decide (domain_of urlparse url ∈ prewarmed w) then w
   else {| prewarmed := {[domain_of urlparse url]} ∪ prewarmed w;
           calls := S (calls w);
           trace := trace w ++ [EvGet (referer_of urlparse url) 6 None] |}).
Proof.
  unfold prewarm, warmed, mbind, M_bind, Net.bind.
  by destruct (bool_decide (domain_of urlparse url ∈ prewarmed w)).
Qed.

Lemma request_detail_attempts (url : pystr) (retries : Z) (w : world)
    (parsed : pystr * pystr) :
  urlparse url = Return parsed ->
  request_detail net urlparse pool url retries w =
  attempts net urlparse pool url retries (Z.to_nat retries) None
           (prewarm net urlparse url w).2.
Proof.
  intros Hu. unfold request_detail. rewrite Hu, bind_choose.
  unfold mbind, M_bind, Net.bind at 1. by rewrite prewarm_returns.
Qed.

(** A URL that [urlparse] rejects: the call raises before anything else. *)
Lemma request_detail_rejected (url : pystr) (retries : Z) (w : world)
    (e : exn) :
  urlparse url = Raise e ->
  request_detail net urlparse pool url retries w = (Raise e, w).
Proof. intros Hu. unfold request_detail. by rewrite Hu. Qed.

End DetailFetcherFacts.

Example request_detail_rejects_url :
  request_detail (fun _ _ => Responds good_body) brackets_checked one_agent
                 (u "http://[::1") 0 start
  = (Raise (Exn ValueError (u "Invalid IPv6 URL")), start).
Proof. vm_compute. reflexivity. Qed.

(** ** Blocked bodies *)

(** C1 as stated fails: with three attempts allowed and a blocked body on
    the first one, the call raises after that single request; the log holds
    the warm-up and one attempt, and no sleep. *)
Lemma blocked_first_attempt_not_retried :
  is_blocked (Responds blocked_body) = true
  ∧ (request_detail (fun _ _ => Responds blocked_body) lianjia one_agent
       detail_url 3 start).1
    = Raise (Exn RuntimeError (u "Blocked by anti-bot verification"))
  ∧ trace (request_detail (fun _ _ => Responds blocked_body) lianjia one_agent
             detail_url 3 start).2
    = [EvGet (u "https://bj.lianjia.com/ershoufang/") 6 None;
       fetch lianjia detail_url].
Proof. split; [|split]; vm_compute; reflexivity. Qed.

(** C1, amended. When an attempt of [request_detail] obtains a 200,
    non-empty body that contains an anti-bot signature, the loop ends there,
    whatever the number of attempts left: the call raises the blocked error
    at once, having logged the request and no sleep. *)
Theorem blocked_attempt_raises_at_once (net : nat → pystr → outcome)
    (urlparse : pystr → result (pystr * pystr)) (pool : list pystr) (url : pystr)
    (retries : Z) (n : nat) (last_exc : option exn) (w : world) :
  pool ≠ [] →
  is_blocked (net (calls w) url) = true →
  attempts net urlparse pool url retries (S n) last_exc w
  = (Raise (Exn RuntimeError (u "Blocked by anti-bot verification")),
     advance w 1 [fetch urlparse url]).
Proof.
  intros Hp Hb. rewrite attempts_S by done.
  destruct (net (calls w) url) as [r|m]; [|done]. simpl in Hb.
  apply andb_true_iff in Hb as [-> ->]. done.
Qed.

Lemma blocked_attempt_raises_at_once_witness :
  attempts (fun _ _ => Responds blocked_body) lianjia one_agent detail_url 3 2
           None start
  = (Raise (Exn RuntimeError (u "Blocked by anti-bot verification")),
     advance start 1 [fetch lianjia detail_url]).
Proof.
  apply (blocked_attempt_raises_at_once (fun _ _ => Responds blocked_body)
           lianjia one_agent detail_url 3 2 None start).
  - discriminate.
  - vm_compute. reflexivity.
Defined.

(** ** Retries *)

Lemma outcomes_S (net : nat → pystr → outcome) (url : pystr) (c n : nat) :
  outcomes net url c (S n) = net c url :: outcomes net url (S c) n.
Proof.
  unfold outcomes. cbn [seq fmap list_fmap]. f_equal.
  rewrite <- fmap_S_seq, <- list_fmap_compose.
  apply list_fmap_ext. intros _ j _. simpl. f_equal. lia.
Qed.

Lemma last_or_cons (last_exc : option exn) (o : outcome) (os : list outcome) :
  last_or last_exc (o :: os)
  = last_or (match net_error o with Some e => Some e | None => last_exc end) os.
Proof.
  unfold last_or, last_net_error. cbn [omap list_omap].
  destruct (net_error o) as [e|]; [|done].
  rewrite last_cons. by destruct (last _).
Qed.

Lemma retried_S (g p : event) (n : nat) :
  retried g p (S n) = [g; p] ++ retried g p n.
Proof. reflexivity. Qed.

Lemma fetches_retried (urlparse : pystr → result (pystr * pystr)) (url : pystr) (n : nat) :
  fetches url (retried (fetch urlparse url) jitter n) = n.
Proof.
  unfold fetches. induction n as [|n IH]; [done|].
  rewrite retried_S. cbn [app].
  rewrite filter_cons_True.
  - rewrite filter_cons_False by done. simpl. by rewrite IH.
  - simpl. by rewrite bool_decide_eq_true_2.
Qed.

Section Retries.
Variable net : nat → pystr → outcome.
Variable urlparse : pystr → result (pystr * pystr).
Variable pool : list pystr.
Hypothesis pool_nonempty : pool ≠ [].
Variable url : pystr.
Variable retries : Z.

Lemma attempts_skip (k n : nat) (last_exc : option exn) (w : world) :
  (∀ j, (j < k)%nat → passed_over (net (j + calls w)%nat url) = true) →
  attempts net urlparse pool url retries (k + n) last_exc w
  = attempts net urlparse pool url retries n
      (last_or last_exc (outcomes net url (calls w) k))
      (advance w k (retried (fetch urlparse url) jitter k)).
Proof.
  revert last_exc w. induction k as [|k IH]; intros last_exc w Hk.
  - simpl. by rewrite advance_0.
  - cbn [Nat.add]. rewrite attempts_S by done.
    rewrite outcomes_S, last_or_cons, retried_S.
    pose proof (Hk 0%nat ltac:(lia)) as H0. simpl in H0.
    assert (∀ j, (j < k)%nat →
              passed_over (net (j + calls (advance w 1
                [fetch urlparse url; jitter]))%nat url) = true) as Hk'.
    { intros j Hj. simpl. replace (j + S (calls w))%nat with (S j + calls w)%nat by lia.
      apply Hk. lia. }
    destruct (net (calls w) url) as [r|m] eqn:Ho; simpl in H0 |- *.
    + apply negb_true_iff in H0. rewrite H0.
      rewrite IH by done. rewrite advance_advance.
      by replace (k + 1)%nat with (S k) by lia.
    + rewrite IH by done. rewrite advance_advance.
      by replace (k + 1)%nat with (S k) by lia.
Qed.

Lemma attempts_exhausted (n : nat) (w : world) :
  (∀ j, (j < n)%nat → passed_over (net (j + calls w)%nat url) = true) →
  attempts net urlparse pool url retries n None w
  = (Raise (default (Exn RuntimeError (exhausted url retries))
                    (last_net_error (outcomes net url (calls w) n))),
     advance w n (retried (fetch urlparse url) jitter n)).
Proof.
  intros Hn. replace n with (n + 0)%nat at 1 by lia.
  rewrite attempts_skip by done. simpl. unfold last_or.
  by destruct (last_net_error _).
Qed.

Lemma attempts_succeeds (k n : nat) (body : pystr) (w : world) :
  (k < n)%nat →
  (∀ j, (j < k)%nat → passed_over (net (j + calls w)%nat url) = true) →
  succeeds (net (k + calls w)%nat url) = Some body →
  attempts net urlparse pool url retries n None w
  = (Return body,
     advance w (S k) (retried (fetch urlparse url) jitter k ++ [fetch urlparse url])).
Proof.
  intros Hlt Hk Hs. replace n with (k + S (n - S k))%nat by lia.
  rewrite attempts_skip by done. rewrite attempts_S by done. simpl.
  destruct (net (k + calls w)%nat url) as [r|m]; [|done]. simpl in Hs.
  destruct ((status_code r =? 200)%Z && truthy (text r)); [|done].
  destruct (blocked (apparent_text r)); [done|]. simpl in Hs.
  injection Hs as <-. by rewrite advance_advance.
Qed.

Lemma attempts_blocked (k n : nat) (w : world) :
  (k < n)%nat →
  (∀ j, (j < k)%nat → passed_over (net (j + calls w)%nat url) = true) →
  is_blocked (net (k + calls w)%nat url) = true →
  attempts net urlparse pool url retries n None w
  = (Raise (Exn RuntimeError (u "Blocked by anti-bot verification")),
     advance w (S k) (retried (fetch urlparse url) jitter k ++ [fetch urlparse url])).
Proof.
  intros Hlt Hk Hb. replace n with (k + S (n - S k))%nat by lia.
  rewrite attempts_skip by done. rewrite attempts_S by done. simpl.
  destruct (net (k + calls w)%nat url) as [r|m]; [|done]. simpl in Hb.
  apply andb_true_iff in Hb as [-> ->]. by rewrite advance_advance.
Qed.

End Retries.

Section PageRetries.
Variable net : nat → pystr → outcome.
Variable PROFILE_USER_AGENT : pystr.
Variable USER_AGENTS : list pystr.
Variable http_error : response → pystr.
Hypothesis agents_nonempty : USER_AGENTS ≠ [].
Variable url : pystr.
Variable headers : gmap pystr pystr.
Variable preferred : option pystr.

Lemma bind_pick {A} (k : unit → M A) (w : world) :
  (pick_user_agent PROFILE_USER_AGENT USER_AGENTS headers preferred ≫= k) w
  = k tt w.
Proof.
  unfold pick_user_agent. destruct (truthy _); [done|].
  by destruct USER_AGENTS.
Qed.

Lemma get_html_loop_error (n : nat) (w : world) (e : exn) :
  page_error http_error (net (calls w) url) = Some e →
  get_html_loop net PROFILE_USER_AGENT USER_AGENTS http_error url headers
                preferred (S n) w =
  match n with
  | O => (Raise e, advance w 1 [page_get url headers])
  | S _ =>
      get_html_loop net PROFILE_USER_AGENT USER_AGENTS http_error url
                    headers preferred n
                    (advance w 1 [page_get url headers; page_pause])
  end.
Proof.
  intros He. cbn [get_html_loop]. rewrite bind_pick, bind_get.
  destruct (net (calls w) url) as [r|m]; simpl in He |- *.
  - destruct (raise_for_status r); [|done]. injection He as <-.
    destruct n; [done|]. rewrite bind_sleep. by rewrite advance_advance.
  - injection He as <-.
    destruct n; [done|]. rewrite bind_sleep. by rewrite advance_advance.
Qed.

Lemma get_html_loop_ok (n : nat) (w : world) (r : response) :
  net (calls w) url = Responds r →
  raise_for_status r = false →
  get_html_loop net PROFILE_USER_AGENT USER_AGENTS http_error url headers
                preferred (S n) w
  = (Return (text r), advance w 1 [page_get url headers]).
Proof.
  intros Hr Hs. cbn [get_html_loop]. rewrite bind_pick, bind_get.
  rewrite Hr. by rewrite Hs.
Qed.

Lemma get_html_skip (k n : nat) (w : world) :
  (∀ j, (j < k)%nat →
        is_Some (page_error http_error (net (j + calls w)%nat url))) →
  get_html_loop net PROFILE_USER_AGENT USER_AGENTS http_error url headers
                preferred (k + S n) w
  = get_html_loop net PROFILE_USER_AGENT USER_AGENTS http_error url headers
                  preferred (S n)
                  (advance w k (retried (page_get url headers) page_pause k)).
Proof.
  revert w. induction k as [|k IH]; intros w Hk.
  - simpl. by rewrite advance_0.
  - cbn [Nat.add].
    destruct (Hk 0%nat ltac:(lia)) as [e He]. simpl in He.
    rewrite (get_html_loop_error _ _ e He).
    replace (k + S n)%nat with (S (k + n)) at 1 by lia.
    replace (S (k + n)) with (k + S n)%nat by lia.
    rewrite IH.
    + rewrite advance_advance, retried_S.
      by replace (k + 1)%nat with (S k) by lia.
    + intros j Hj. simpl.
      replace (j + S (calls w))%nat with (S j + calls w)%nat by lia.
      apply Hk. lia.
Qed.

End PageRetries.

(** C6 as stated fails: with three attempts allowed, a network error on the
    first and a blocked body on the second, every attempt made has failed,
    yet the call stops after two attempts, and the error it raises is the
    blocked one, not the network error. *)
Lemma blocked_attempt_cuts_retries_short :
  net_error (timeout_then_blocked 1 detail_url)
    = Some (Exn RequestException (u "timed out"))
  ∧ is_blocked (timeout_then_blocked 2 detail_url) = true
  ∧ (request_detail timeout_then_blocked lianjia one_agent detail_url 3 start).1
    = Raise (Exn RuntimeError (u "Blocked by anti-bot verification"))
  ∧ trace (request_detail timeout_then_blocked lianjia one_agent detail_url 3
             start).2
    = [EvGet (u "https://bj.lianjia.com/ershoufang/") 6 None;
       fetch lianjia detail_url; jitter; fetch lianjia detail_url]
  ∧ fetches detail_url
      (trace (request_detail timeout_then_blocked lianjia one_agent
                detail_url 3 start).2) = 2%nat.
Proof.
  split; [reflexivity|]. split; [vm_compute; reflexivity|]. split; [vm_compute; reflexivity|].
  split; [vm_compute; reflexivity|]. vm_compute; reflexivity.
Qed.

(** C6, amended. Let [n] be the retry bound (no attempt is made when it is
    not positive). For [request_detail], called with a URL that [urlparse]
    accepts and a User-Agent pool that is not empty, after its warm-up: when
    each of the
    [n] attempts ends in a network error, a status other than 200 or an
    empty body, exactly [n] requests are sent, each followed by a sleep, and
    the call raises the last network error, or the generic error when there
    was none; the first attempt that succeeds returns its body with no
    further request; the first attempt whose body is blocked raises the
    blocked error with no further request. For [get_html], called with a
    [USER_AGENTS] list that is not empty, where a failed attempt is a
    network error or a status from 400 to 599: when every
    attempt fails, exactly [n] requests are sent and the error of the last
    one is raised (the generic error when [n] is zero); the first response
    with another status is returned with no further request. *)
Theorem fetcher_retry_contract (net : nat → pystr → outcome)
    (urlparse : pystr → result (pystr * pystr)) (pool : list pystr)
    (PROFILE_USER_AGENT : pystr) (USER_AGENTS : list pystr)
    (http_error : response → pystr) (url : pystr) (retries : Z)
    (headers : gmap pystr pystr) (preferred : option pystr) (w : world)
    (parsed : pystr * pystr) :
  urlparse url = Return parsed →
  pool ≠ [] →
  USER_AGENTS ≠ [] →
  let n := Z.to_nat retries in
  let w1 := (prewarm net urlparse url w).2 in
  let detail := request_detail net urlparse pool url retries w in
  let page := get_html net PROFILE_USER_AGENT USER_AGENTS http_error url
                       headers retries preferred w in
  ((∀ j, (j < n)%nat → passed_over (net (j + calls w1)%nat url) = true) →
   detail = (Raise (default (Exn RuntimeError (exhausted url retries))
                            (last_net_error (outcomes net url (calls w1) n))),
             advance w1 n (retried (fetch urlparse url) jitter n)))
  ∧ (∀ k body, (k < n)%nat →
       (∀ j, (j < k)%nat → passed_over (net (j + calls w1)%nat url) = true) →
       succeeds (net (k + calls w1)%nat url) = Some body →
       detail = (Return body,
                 advance w1 (S k) (retried (fetch urlparse url) jitter k
                                   ++ [fetch urlparse url])))
  ∧ (∀ k, (k < n)%nat →
       (∀ j, (j < k)%nat → passed_over (net (j + calls w1)%nat url) = true) →
       is_blocked (net (k + calls w1)%nat url) = true →
       detail = (Raise (Exn RuntimeError (u "Blocked by anti-bot verification")),
                 advance w1 (S k) (retried (fetch urlparse url) jitter k
                                   ++ [fetch urlparse url])))
  ∧ (n = 0%nat →
     page = (Raise (Exn RuntimeError (u "Failed to retrieve html")), w))
  ∧ (∀ m e, n = S m →
       (∀ j, (j < m)%nat →
             is_Some (page_error http_error (net (j + calls w)%nat url))) →
       page_error http_error (net (m + calls w)%nat url) = Some e →
       page = (Raise e,
               advance w n (retried (page_get url headers) page_pause m
                            ++ [page_get url headers])))
  ∧ (∀ k r, (k < n)%nat →
       (∀ j, (j < k)%nat →
             is_Some (page_error http_error (net (j + calls w)%nat url))) →
       net (k + calls w)%nat url = Responds r →
       raise_for_status r = false →
       page = (Return (text r),
               advance w (S k) (retried (page_get url headers) page_pause k
                                ++ [page_get url headers])))
  ∧ fetches url (retried (fetch urlparse url) jitter n) = n.
Proof.
  intros Hurl Hpool Hagents n w1 detail page.
  subst detail page. rewrite (request_detail_attempts _ _ _ Hpool _ _ _ _ Hurl).
  fold w1. fold n.
  split; [by apply attempts_exhausted|].
  split; [intros k body; by apply attempts_succeeds|].
  split; [intros k; by apply attempts_blocked|].
  unfold get_html. fold n. split; [|split; [|split]].
  - by intros ->.
  - intros m e -> Hm He.
    replace (S m) with (m + 1)%nat at 1 by lia.
    rewrite get_html_skip by done.
    rewrite (get_html_loop_error net PROFILE_USER_AGENT USER_AGENTS http_error
               Hagents url headers preferred 0 _ e) by done.
    by rewrite advance_advance.
  - intros k r Hk Hj Hr Hs.
    replace n with (k + S (n - S k))%nat by lia.
    rewrite get_html_skip by done.
    rewrite (get_html_loop_ok net PROFILE_USER_AGENT USER_AGENTS http_error
               Hagents url headers preferred _ _ r) by done.
    by rewrite advance_advance.
  - apply fetches_retried.
Qed.

Lemma fetcher_retry_contract_witness :
  request_detail timeout_then_good lianjia one_agent detail_url 3 start
  = (Return (u "<html>ok</html>"),
     advance (prewarm timeout_then_good lianjia detail_url start).2 2
       (retried (fetch lianjia detail_url) jitter 1 ++ [fetch lianjia detail_url])).
Proof.
  pose proof (fetcher_retry_contract timeout_then_good lianjia one_agent
                [] one_agent (fun _ => []) detail_url 3 ∅ None start
                (u "https", u "bj.lianjia.com") eq_refl
                ltac:(discriminate) ltac:(discriminate)) as H.
  cbv zeta in H. destruct H as (_ & Hgood & _).
  apply (Hgood 1%nat (u "<html>ok</html>")).
  - vm_compute. lia.
  - intros j Hj. destruct j as [|j]; [reflexivity|lia].
  - vm_compute. reflexivity.
Defined.

(** ** Warm-up *)

Lemma warmups_app (d : pystr) (t1 t2 : list event) :
  warmups d (t1 ++ t2) = (warmups d t1 + warmups d t2)%nat.
Proof. unfold warmups. by rewrite filter_app, length_app. Qed.

Lemma warmups_single (d : pystr) (e : event) :
  warmups d [e] = if is_warmup d e then 1%nat else 0%nat.
Proof.
  unfold warmups. destruct (is_warmup d e) eqn:He.
  - by rewrite filter_cons_True.
  - rewrite filter_cons_False; [done|]. by rewrite He.
Qed.

Lemma is_warmup_referer (urlparse : pystr → result (pystr * pystr)) (d url : pystr) :
  is_warmup d (EvGet (referer_of urlparse url) 6 None)
  = bool_decide (d = domain_of urlparse url).
Proof.
  unfold is_warmup, referer_of. rewrite andb_true_r.
  apply bool_decide_ext. split.
  - intros H. by apply app_inv_tail in H.
  - by intros ->.
Qed.

Section WarmUp.
Variable net : nat → pystr → outcome.
Variable urlparse : pystr → result (pystr * pystr).
Variable pool : list pystr.

Lemma attempts_world (url : pystr) (retries : Z) (n : nat)
    (last_exc : option exn) (w : world) :
  ∃ k tr, (attempts net urlparse pool url retries n last_exc w).2 = advance w k tr
          ∧ ∀ d, warmups d tr = 0%nat.
Proof.
  revert last_exc w. induction n as [|n IH]; intros last_exc w.
  - exists 0%nat, []. split; [|done]. rewrite advance_0.
    simpl. by destruct last_exc.
  - destruct (decide (pool = [])) as [Hp|Hp].
    { exists 0%nat, []. split; [|done]. rewrite advance_0.
      cbn [attempts]. unfold choose_user_agent. by rewrite Hp. }
    rewrite attempts_S by done.
    assert (∀ last_exc',
      ∃ k tr, (attempts net urlparse pool url retries n last_exc'
                 (advance w 1 [fetch urlparse url; jitter])).2 = advance w k tr
              ∧ ∀ d, warmups d tr = 0%nat) as Hrec.
    { intros last_exc'.
      destruct (IH last_exc' (advance w 1 [fetch urlparse url; jitter]))
        as (k & tr & -> & Htr).
      exists (k + 1)%nat, ([fetch urlparse url; jitter] ++ tr).
      split; [by rewrite advance_advance|].
      intros d. rewrite warmups_app, Htr. done. }
    destruct (net (calls w) url) as [r|m]; [|apply Hrec].
    destruct ((status_code r =? 200)%Z && truthy (text r)); [|apply Hrec].
    destruct (blocked (apparent_text r));
      by exists 1%nat, [fetch urlparse url].
Qed.

Lemma prewarm_warmed_once (url : pystr) (w : world) :
  warmed_once w → warmed_once (prewarm net urlparse url w).2.
Proof.
  intros Hw. rewrite prewarm_returns. simpl.
  case_bool_decide as Hin; [done|].
  intros d. cbn [trace prewarmed]. specialize (Hw d).
  rewrite warmups_app, warmups_single, is_warmup_referer.
  destruct (decide (d = domain_of urlparse url)) as [->|Hd].
  - rewrite (bool_decide_eq_false_2 _ Hin) in Hw.
    rewrite (bool_decide_eq_true_2 (_ = _)) by done.
    rewrite (bool_decide_eq_true_2 (_ ∈ _)).
    + lia.
    + apply elem_of_union_l. by apply elem_of_singleton.
  - rewrite (bool_decide_eq_false_2 (d = _)) by done. rewrite Nat.add_0_r.
    erewrite (bool_decide_ext (d ∈ {[domain_of urlparse url]} ∪ prewarmed w));
      [exact Hw|].
    rewrite elem_of_union, elem_of_singleton. tauto.
Qed.

Lemma request_detail_warmed_once (url : pystr) (retries : Z) (w : world) :
  warmed_once w →
  warmed_once (request_detail net urlparse pool url retries w).2.
Proof.
  intros Hw. destruct (urlparse url) as [parsed|e] eqn:Hu.
  2: { unfold request_detail. by rewrite Hu. }
  destruct (decide (pool = [])) as [Hp|Hp].
  { unfold request_detail, choose_user_agent. by rewrite Hu, Hp. }
  rewrite (request_detail_attempts _ _ _ Hp _ _ _ _ Hu).
  apply (prewarm_warmed_once url) in Hw.
  destruct (attempts_world url retries (Z.to_nat retries) None
              (prewarm net urlparse url w).2) as (k & tr & -> & Htr).
  intros d. simpl. rewrite warmups_app, Htr, Nat.add_0_r. apply Hw.
Qed.

Lemma session_calls_warmed_once (cs : list (pystr * Z)) (w : world) :
  warmed_once w → warmed_once (session_calls net urlparse pool cs w).2.
Proof.
  revert w. induction cs as [|[url retries] cs IH]; intros w Hw; [done|].
  cbn [session_calls]. unfold mbind, M_bind, Net.bind, try_except.
  apply (request_detail_warmed_once url retries) in Hw.
  destruct (request_detail net urlparse pool url retries w) as [[body|e] w'];
    simpl in Hw |- *.
  - specialize (IH w' Hw).
    by destruct (session_calls net urlparse pool cs w') as [[rs|e] w''].
  - specialize (IH w' Hw).
    by destruct (session_calls net urlparse pool cs w') as [[rs|e'] w''].
Qed.

Lemma attempts_ext (net' : nat → pystr → outcome) (url : pystr) (retries : Z)
    (n : nat) (last_exc : option exn) (w : world) :
  (∀ i v, (calls w ≤ i)%nat → net' i v = net i v) →
  attempts net' urlparse pool url retries n last_exc w
  = attempts net urlparse pool url retries n last_exc w.
Proof.
  revert last_exc w. induction n as [|n IH]; intros last_exc w Hext; [done|].
  destruct (decide (pool = [])) as [Hp|Hp].
  { cbn [attempts]. unfold choose_user_agent. by rewrite Hp. }
  rewrite !attempts_S by done. rewrite Hext by done.
  assert (∀ i v, (calls (advance w 1 [fetch urlparse url; jitter]) ≤ i)%nat →
                 net' i v = net i v) as Hext'.
  { intros i v Hi. apply Hext. simpl in Hi. lia. }
  destruct (net (calls w) url) as [r|m]; [|by apply IH].
  destruct ((status_code r =? 200)%Z && truthy (text r)); [done|by apply IH].
Qed.

End WarmUp.

Lemma start_warmed_once : warmed_once start.
Proof. intros d. simpl. unfold warmups. simpl. lia. Qed.

Example warmup_failed_not_repeated :
  (session_calls warmup_fails lianjia one_agent
     [(detail_url, 3%Z); (detail_url, 3%Z)] start).1
  = Return [Return (u "<html>ok</html>"); Return (u "<html>ok</html>")]
  ∧ trace (session_calls warmup_fails lianjia one_agent
             [(detail_url, 3%Z); (detail_url, 3%Z)] start).2
  = [EvGet (u "https://bj.lianjia.com/ershoufang/") 6 None;
     fetch lianjia detail_url; fetch lianjia detail_url].
Proof. split; vm_compute; reflexivity. Qed.

(** C8. In any run of [request_detail] calls of one process, whatever the
    network does, the log holds at most one warm-up request per scheme and
    host. The outcome of a warm-up request has no effect on the call: a call
    gives the same result and state under two networks that differ only in
    the outcome of its warm-up request; in particular, when the warm-up
    raises and the first attempt succeeds, the call returns that body (a
    warm-up is sent only for a URL that [urlparse] accepts). *)
Theorem warmup_once_and_swallowed (net : nat → pystr → outcome)
    (urlparse : pystr → result (pystr * pystr)) (pool : list pystr) :
  (∀ cs d,
     (warmups d (trace (session_calls net urlparse pool cs start).2) ≤ 1)%nat)
  ∧ (∀ net' url retries w,
       domain_of urlparse url ∉ prewarmed w →
       (∀ i v, i ≠ calls w → net' i v = net i v) →
       request_detail net' urlparse pool url retries w
       = request_detail net urlparse pool url retries w)
  ∧ (∀ url retries w m body parsed,
       urlparse url = Return parsed →
       pool ≠ [] →
       domain_of urlparse url ∉ prewarmed w →
       net (calls w) (referer_of urlparse url) = Fails m →
       (0 < retries)%Z →
       succeeds (net (S (calls w)) url) = Some body →
       (request_detail net urlparse pool url retries w).1 = Return body).
Proof.
  split; [|split].
  - intros cs d.
    pose proof (session_calls_warmed_once net urlparse pool cs start
                  start_warmed_once d) as H.
    destruct (bool_decide _) in H; lia.
  - intros net' url retries w Hd Hext.
    destruct (urlparse url) as [parsed|e] eqn:Hu.
    2: { unfold request_detail. by rewrite Hu. }
    destruct (decide (pool = [])) as [Hp|Hp].
    { unfold request_detail, choose_user_agent. by rewrite Hu, Hp. }
    rewrite !(request_detail_attempts _ _ _ Hp _ _ _ _ Hu).
    rewrite !prewarm_returns. simpl.
    rewrite bool_decide_eq_false_2 by done.
    apply attempts_ext. intros i v Hi. apply Hext. simpl in Hi. lia.
  - intros url retries w m body parsed Hu Hp Hd Hm Hr Hs.
    rewrite (request_detail_attempts _ _ _ Hp _ _ _ _ Hu).
    rewrite prewarm_returns. simpl.
    rewrite bool_decide_eq_false_2 by done.
    rewrite (attempts_succeeds net urlparse pool Hp url retries 0
               (Z.to_nat retries) body); [done|lia|intros j Hj; lia|done].
Qed.

Lemma warmup_once_and_swallowed_witness :
  (warmups (u "https://bj.lianjia.com")
     (trace (session_calls warmup_fails lianjia one_agent
               [(detail_url, 3%Z); (detail_url, 3%Z)] start).2) ≤ 1)%nat.
Proof.
  apply (proj1 (warmup_once_and_swallowed warmup_fails lianjia one_agent)).
Defined.

(** ** Listings without a detail link *)

Lemma base_items_keys (i : info) : (base_items i).*1 = BASE_COLUMNS.
Proof. reflexivity. Qed.

Lemma base_columns_nodup : NoDup BASE_COLUMNS.
Proof. apply (bool_decide_unpack _). vm_compute. exact I. Qed.

Lemma build_base_row_columns (i : info) (c : pystr) :
  c ∈ BASE_COLUMNS → is_Some (build_base_row i !! c).
Proof.
  intros Hc. unfold build_base_row.
  apply not_eq_None_Some. intros Hn.
  apply not_elem_of_list_to_map in Hn. by rewrite base_items_keys in Hn.
Qed.

Lemma build_base_row_link (i : info) :
  build_base_row i !! LINK = Some (get_or_empty (link i)).
Proof.
  unfold build_base_row. apply elem_of_list_to_map_1.
  - rewrite base_items_keys. apply base_columns_nodup.
  - unfold base_items. do 15 apply list_elem_of_further. apply list_elem_of_here.
Qed.

Lemma build_base_row_status (i : info) : build_base_row i !! STATUS = None.
Proof.
  unfold build_base_row. apply not_elem_of_list_to_map.
  rewrite base_items_keys. apply (bool_decide_unpack _). vm_compute. exact I.
Qed.

Lemma foldl_filtrate_other (gbk : N → bool) (cols : list pystr)
    (row : gmap pystr pystr) (c : pystr) :
  c ∉ cols →
  foldl (fun r column => <[column := filtrate gbk (default [] (r !! column))]> r)
        row cols !! c = row !! c.
Proof.
  revert row. induction cols as [|k cols IH]; intros row Hc; [done|].
  apply not_elem_of_cons in Hc as [Hk Hc]. simpl.
  rewrite IH by done. by rewrite lookup_insert_ne.
Qed.

Lemma csv_row_status (gbk : N → bool) (row : gmap pystr pystr) :
  csv_row gbk row !! STATUS
  = Some (filtrate gbk (default [] (row !! STATUS))).
Proof.
  unfold csv_row, headers. rewrite app_assoc, foldl_app. cbn [foldl].
  rewrite lookup_insert_eq, foldl_filtrate_other; [done|].
  apply (bool_decide_unpack _). vm_compute. exact I.
Qed.

Lemma print_skip {A} (console : N → bool) (k : M A) (w : world) :
  (print console (u "Skipping entry without detail link") ;; k) w = k w.
Proof. reflexivity. Qed.

(** C7 as stated fails: the row of a listing without a link has no status
    key, and its status column is written empty, not as a skip mark. *)
Lemma unlinked_row_has_no_skipped_status :
  link unlinked = None
  ∧ (process ascii_only (fun _ _ => Responds good_body) lianjia one_agent
       (fun _ => ParseTree detail_tree) zero zero ascii_only lower_end
       clock_limit unlinked false start)
    = (Return (build_base_row unlinked), start)
  ∧ build_base_row unlinked !! STATUS = None
  ∧ csv_row ascii_only (build_base_row unlinked) !! STATUS = Some []
  ∧ contains (u "skipped")
      (default [] (csv_row ascii_only (build_base_row unlinked) !! STATUS))
    = false.
Proof.
  split; [reflexivity|]. split; [vm_compute; reflexivity|]. split; [vm_compute; reflexivity|].
  split; vm_compute; reflexivity.
Qed.

(** C7, amended. For every listing whose link is empty or absent the loop
    body returns the base row as it is, with every base column filled from
    the listing and no status key, and leaves the state of the process
    untouched: no request and no sleep. [write_csv] then writes the status
    column of that row as the empty string. *)
Theorem process_without_link (gbk : N → bool) (net : nat → pystr → outcome)
    (urlparse : pystr → result (pystr * pystr)) (pool : list pystr)
    (etree_HTML : pystr → parsed) (min_delay max_delay : pyfloat)
    (console : N → bool) (uniform : pyfloat → pyfloat → pyfloat)
    (clock_max : Q) (i : info) (last : bool) (w : world) :
  link i = None ∨ link i = Some [] →
  process gbk net urlparse pool etree_HTML min_delay max_delay
          console uniform clock_max i last w
    = (Return (build_base_row i), w)
  ∧ (∀ c, c ∈ BASE_COLUMNS → is_Some (build_base_row i !! c))
  ∧ build_base_row i !! STATUS = None
  ∧ csv_row gbk (build_base_row i) !! STATUS = Some [].
Proof.
  intros Hl. split; [|split; [|split]].
  - unfold process. rewrite build_base_row_link.
    destruct Hl as [-> | ->]; exact (print_skip console (mret _) w).
  - apply build_base_row_columns.
  - apply build_base_row_status.
  - by rewrite csv_row_status, build_base_row_status.
Qed.

Lemma process_without_link_witness :
  process ascii_only (fun _ _ => Responds good_body) lianjia one_agent
    (fun _ => ParseTree detail_tree) zero zero ascii_only lower_end clock_limit
    unlinked false start
  = (Return (build_base_row unlinked), start).
Proof.
  apply (process_without_link ascii_only (fun _ _ => Responds good_body) lianjia
           one_agent (fun _ => ParseTree detail_tree) zero zero ascii_only
           lower_end clock_limit unlinked false start).
  left. reflexivity.
Defined.

(** * Further properties *)

(** ** Strings *)

Lemma lstrip_head (s : pystr) (c : N) (r : pystr) :
  lstrip s = c :: r → is_space c = false.
Proof.
  induction s as [|a s IH]; [done|]. simpl.
  destruct (is_space a) eqn:Ha; [done|]. by intros [= <- _].
Qed.

Lemma lstrip_cons_id (c : N) (r : pystr) :
  is_space c = false → lstrip (c :: r) = c :: r.
Proof. intros Hc. simpl. by rewrite Hc. Qed.

Lemma lstrip_lstrip (s : pystr) : lstrip (lstrip s) = lstrip s.
Proof.
  destruct (lstrip s) as [|c r] eqn:Hs; [done|].
  apply lstrip_cons_id. by apply (lstrip_head s c r).
Qed.

Lemma lstrip_snoc (l : pystr) (c : N) :
  is_space c = false → ∃ l', lstrip (l ++ [c]) = l' ++ [c].
Proof.
  intros Hc. induction l as [|a l IH]; simpl.
  - rewrite Hc. by exists [].
  - destruct (is_space a); [done|]. by exists (a :: l).
Qed.

Lemma strip_strip (s : pystr) : strip (strip s) = strip s.
Proof.
  unfold strip. destruct (lstrip s) as [|c r] eqn:Hs; [done|].
  pose proof (lstrip_head s c r Hs) as Hc.
  cbn [rev]. destruct (lstrip_snoc (rev r) c Hc) as [l' Hl'].
  rewrite Hl'. rewrite rev_app_distr. cbn [rev app].
  rewrite (lstrip_cons_id c (rev l') Hc).
  cbn [rev]. rewrite rev_involutive.
  rewrite <- Hl', lstrip_lstrip, Hl'. by rewrite rev_app_distr.
Qed.

Lemma strip_ends (s : pystr) :
  (∀ c r, strip s = c :: r → is_space c = false)
  ∧ (∀ r c, strip s = r ++ [c] → is_space c = false).
Proof.
  unfold strip. destruct (lstrip s) as [|a t] eqn:Hs.
  { split; [done|]. intros r c H. by destruct r. }
  pose proof (lstrip_head s a t Hs) as Ha.
  cbn [rev]. destruct (lstrip_snoc (rev t) a Ha) as [l' Hl'].
  split.
  - rewrite Hl', rev_app_distr. cbn [rev app]. by intros c r [= <- _].
  - intros r c Hr. apply (f_equal (@rev N)) in Hr.
    rewrite rev_involutive, rev_app_distr in Hr. cbn [rev app] in Hr.
    by apply lstrip_head in Hr.
Qed.

Lemma join_nonempty (sep : pystr) (parts : list pystr) :
  parts ≠ [] → Forall (fun p => p ≠ []) parts → join sep parts ≠ [].
Proof.
  destruct parts as [|p parts]; [done|]. intros _ Hp.
  apply Forall_cons in Hp as [Hp _].
  destruct parts; simpl; [done|]. by destruct p.
Qed.

Lemma truthy_nonempty (s : pystr) : truthy s = true ↔ s ≠ [].
Proof. by destruct s. Qed.

(** ** Character filtering *)

(** X1. [filtrate] keeps exactly the characters the GBK codec accepts, in
    their order: it only deletes characters, every character left is
    encodable, a text that is encodable throughout is unchanged, filtering
    twice is filtering once, and a concatenation is filtered piecewise. *)
Theorem filtrate_keeps_encodable (gbk : N → bool) (a b : pystr) :
  sublist (filtrate gbk a) a
  ∧ Forall (fun c => gbk c = true) (filtrate gbk a)
  ∧ (∀ c, c ∈ a → gbk c = true → c ∈ filtrate gbk a)
  ∧ (Forall (fun c => gbk c = true) a → filtrate gbk a = a)
  ∧ filtrate gbk (filtrate gbk a) = filtrate gbk a
  ∧ filtrate gbk (a ++ b) = filtrate gbk a ++ filtrate gbk b.
Proof.
  unfold filtrate. split; [apply sublist_filter|].
  split; [apply Forall_forall; intros c Hc; by apply list_elem_of_filter in Hc as [? _]|].
  split; [intros c Hc Hg; by apply list_elem_of_filter|].
  split; [|split].
  - intros Ha. induction Ha as [|c l Hc _ IH]; [done|].
    rewrite filter_cons_True by done. by rewrite IH.
  - apply list_filter_filter_l. intros c Hc. exact Hc.
  - apply filter_app.
Qed.

(** ** Classification, continued *)

(** X2. Classifying a concatenation of two segment lists gives the
    classification of the second list, completed for the attributes it
    leaves out by the classification of the first. *)
Theorem categorise_app (l1 l2 : list pystr) :
  ∃ m1 m2,
    categorise (Some l1) = Return m1
    ∧ categorise (Some l2) = Return m2
    ∧ categorise (Some (l1 ++ l2)) = Return (m2 ∪ m1).
Proof.
  exists (scan_details features l1), (scan_details features l2).
  split; [done|]. split; [done|]. unfold categorise. f_equal.
  apply map_eq. intros k.
  rewrite lookup_union, !scan_details_lookup, filter_app, last_app.
  by destruct (last (filter _ l2)), (last (filter _ l1)).
Qed.

(** ** The listing extractor, continued *)

Lemma extract_item_returns (re_search : pystr → pystr → option pystr) (li : node) :
  address_texts li ≠ [] → ∃ i, extract_item re_search li = Return i.
Proof.
  intros Hd. unfold extract_item. fold (address_texts li).
  destruct (address_texts li) as [|d ds]; [done|]. simpl.
  destruct (metrics re_search _) as [[? ?] ?]. by eexists.
Qed.

Lemma extract_items_raise (re_search : pystr → pystr → option pystr)
    (lis : list node) :
  Exists (fun li => address_texts li = []) lis →
  extract_items re_search lis = Raise not_iterable.
Proof.
  induction 1 as [li lis Hli | li lis _ IH]; simpl.
  - by rewrite (extract_item_address re_search li Hli).
  - destruct (extract_item re_search li) as [i|e] eqn:Hi.
    + by rewrite IH.
    + destruct (decide (address_texts li = [])) as [Hd|Hd].
      * rewrite (extract_item_address re_search li Hd) in Hi. by injection Hi as <-.
      * destruct (extract_item_returns re_search li Hd) as [i Hi']. congruence.
Qed.

Lemma extract_items_return (re_search : pystr → pystr → option pystr)
    (lis : list node) (infos : list info) :
  extract_items re_search lis = Return infos ↔
  Forall2 (fun li i => extract_item re_search li = Return i) lis infos.
Proof.
  revert infos. induction lis as [|li lis IH]; intros infos; simpl.
  - split.
    + intros [= <-]. constructor.
    + intros H. by apply Forall2_nil_inv_l in H as ->.
  - destruct (extract_item re_search li) as [i|e] eqn:Hi.
    + destruct (extract_items re_search lis) as [rest|e] eqn:Hr.
      * split.
        -- intros [= <-]. constructor; [done|]. by apply IH.
        -- intros H. apply Forall2_cons_inv_l in H as (i' & rest' & Hi' & Hrest & ->).
           apply IH in Hrest. congruence.
      * split; [done|].
        intros H. apply Forall2_cons_inv_l in H as (i' & rest' & Hi' & Hrest & ->).
        apply IH in Hrest. congruence.
    + split; [done|].
      intros H. apply Forall2_cons_inv_l in H as (i' & rest' & Hi' & Hrest & ->).
      congruence.
Qed.

(** X3. On a parsed page with listing items [extract] is all or nothing: if
    one item has no address text the call raises a [TypeError] and no record
    of the page is returned; if every item has one, the call returns one
    record per item, in document order. *)
Theorem extract_all_or_nothing (re_search : pystr → pystr → option pystr)
    (root : node) :
  (Exists (fun li => address_texts li = []) (li_list root) →
   extract_parsed re_search (ParseTree root) = Raise not_iterable)
  ∧ (li_list root ≠ [] →
     Forall (fun li => address_texts li ≠ []) (li_list root) →
     ∃ infos,
       extract_parsed re_search (ParseTree root) = Return (Some infos)
       ∧ Forall2 (fun li i => extract_item re_search li = Return i)
                 (li_list root) infos).
Proof.
  unfold extract_parsed. split.
  - intros Hex. destruct (li_list root) as [|li lis] eqn:Hl.
    + by apply Exists_nil in Hex.
    + by rewrite (extract_items_raise re_search (li :: lis) Hex).
  - intros Hne Hall. destruct (li_list root) as [|li lis] eqn:Hl; [done|].
    destruct (extract_items re_search (li :: lis)) as [infos|e] eqn:He.
    + exists infos. split; [done|]. by apply extract_items_return.
    + exfalso. revert He. generalize (li :: lis) as l, Hall.
      clear. intros l Hall. induction Hall as [|x l Hx _ IH]; [done|]. simpl.
      destruct (extract_item_returns re_search x Hx) as [i ->].
      destruct (extract_items re_search l); [done|]. intros [= <-]. by apply IH.
Qed.

(** X4. Whatever [etree.HTML] gave, a list returned by [extract] is never
    empty: it comes from a parsed page and has exactly one record for each
    of its listing items. *)
Theorem extract_list_nonempty (re_search : pystr → pystr → option pystr)
    (p : parsed) (infos : list info) :
  extract_parsed re_search p = Return (Some infos) →
  infos ≠ []
  ∧ ∃ root, p = ParseTree root ∧ length infos = length (li_list root).
Proof.
  unfold extract_parsed. destruct p as [e| |root]; [done|done|].
  destruct (li_list root) as [|li lis] eqn:Hl; [done|].
  destruct (extract_items re_search (li :: lis)) as [infos'|e] eqn:He; [|done].
  intros [= <-]. apply extract_items_return in He.
  pose proof (Forall2_length _ _ _ He) as Hlen.
  split.
  - intros ->. done.
  - exists root. split; [done|]. by rewrite Hl.
Qed.

Lemma extract_list_nonempty_witness :
  [full_record] ≠ []
  ∧ ∃ root, ParseTree (page [full_item]) = ParseTree root
            ∧ length [full_record] = length (li_list root).
Proof.
  apply (extract_list_nonempty no_match (ParseTree (page [full_item])) [full_record]).
  vm_compute. reflexivity.
Defined.

(** X5. In every record [extract] builds, each tag is non-empty and has no
    white space at its ends, a price that is present carries its unit
    suffix, and the three engagement metrics are absent when the item has no
    follow text. *)
Theorem extract_item_fields (re_search : pystr → pystr → option pystr)
    (li : node) (i : info) :
  extract_item re_search li = Return i →
  Forall (fun t => t ≠ [] ∧ stripped t) (tags i)
  ∧ (∀ p, total_price i = Some p → ∃ q, p = q ++ u " 万")
  ∧ (∀ p, unit_price i = Some p → ∃ q, p = q ++ u " 元")
  ∧ (follow_info i = [] →
     follow_count i = None ∧ visit_count i = None ∧ publish_time i = None).
Proof.
  unfold extract_item.
  set (follow_text := join (u " / ") _). clearbody follow_text.
  set (tag_texts := _ ≫= all_texts). clearbody tag_texts.
  destruct (categorise _) as [cats|e];
    [|by destruct (metrics _ _) as [[? ?] ?]].
  destruct (metrics re_search follow_text) as [[fc vc] pt] eqn:Hm.
  intros [= <-]. cbn [tags total_price unit_price follow_info follow_count
                      visit_count publish_time].
  split; [|split; [|split]].
  - apply Forall_forall. intros t Ht.
    apply list_elem_of_filter in Ht as [Ht Hin].
    apply list_elem_of_fmap in Hin as (x & -> & _).
    split; [by apply truthy_nonempty|]. apply strip_strip.
  - intros p Hp. destruct (head _) as [q|]; [|done]. injection Hp as <-. by exists q.
  - intros p Hp. destruct (head _) as [q|]; [|done]. injection Hp as <-. by exists q.
  - intros ->. unfold metrics in Hm. simpl in Hm.
    by injection Hm as <- <- <-.
Qed.

Lemma extract_item_fields_witness :
  Forall (fun t => t ≠ [] ∧ stripped t) (tags full_record).
Proof.
  apply (extract_item_fields no_match full_item full_record).
  vm_compute. reflexivity.
Defined.

(** ** Rows of the two CSV files *)

Lemma headers_nodup : NoDup headers.
Proof. apply (bool_decide_unpack _). vm_compute. exact I. Qed.

Lemma foldl_filtrate_lookup (gbk : N → bool) (cols : list pystr)
    (row : gmap pystr pystr) (c : pystr) :
  NoDup cols → c ∈ cols →
  foldl (fun r column => <[column := filtrate gbk (default [] (r !! column))]> r)
        row cols !! c
  = Some (filtrate gbk (default [] (row !! c))).
Proof.
  revert row. induction cols as [|k cols IH]; intros row Hnd Hc.
  - by apply elem_of_nil in Hc.
  - apply NoDup_cons in Hnd as [Hk Hnd]. simpl.
    destruct (decide (c = k)) as [->|Hck].
    + rewrite foldl_filtrate_other by done. by rewrite lookup_insert_eq.
    + apply elem_of_cons in Hc as [Hc|Hc]; [done|].
      rewrite IH by done. by rewrite lookup_insert_ne.
Qed.

Lemma csv_row_lookup (gbk : N → bool) (row : gmap pystr pystr) (c : pystr) :
  c ∈ headers →
  csv_row gbk row !! c = Some (filtrate gbk (default [] (row !! c))).
Proof. intros Hc. apply foldl_filtrate_lookup; [apply headers_nodup|done]. Qed.

Lemma csv_row_other (gbk : N → bool) (row : gmap pystr pystr) (c : pystr) :
  c ∉ headers → csv_row gbk row !! c = row !! c.
Proof. intros Hc. by apply foldl_filtrate_other. Qed.

Lemma base_in_headers (c : pystr) : c ∈ BASE_COLUMNS → c ∈ headers.
Proof. intros Hc. unfold headers. apply elem_of_app. by left. Qed.

Lemma list_to_map_keys (l : list (pystr * pystr)) :
  NoDup l.*1 →
  (fun c => (list_to_map l : gmap pystr pystr) !! c) <$> l.*1
  = (fun kv => Some (snd kv)) <$> l.
Proof.
  intros Hnd. rewrite <- list_fmap_compose. apply list_fmap_ext.
  intros j [k v] Hj. simpl. apply elem_of_list_to_map_1; [done|].
  by apply list_elem_of_lookup_2 in Hj.
Qed.

Ltac eval_tests :=
  repeat match goal with
  | |- context [among ?a ?b] =>
      let v := eval vm_compute in (among a b) in
      change (among a b) with v; cbv iota
  | |- context [bool_decide (?a = ?b)] =>
      let v := eval vm_compute in (bool_decide (a = b)) in
      change (bool_decide (a = b)) with v; cbv iota
  end.

Lemma filtrate_option (gbk : N → bool) (o : option pystr) :
  match o with Some s => filtrate gbk s | None => [] end
  = filtrate gbk (get_or_empty o).
Proof. by destruct o. Qed.

Lemma info_to_row_cells (gbk : N → bool) (i : info) :
  info_to_row gbk i = (fun kv => filtrate gbk (snd kv)) <$> base_items i.
Proof.
  unfold info_to_row, CSV_COLUMNS, base_items. cbn [fmap list_fmap snd].
  repeat (apply (f_equal2 cons);
          [unfold cell, info_get, price_get; eval_tests;
           try apply filtrate_option; reflexivity|]).
  reflexivity.
Qed.

(** X6. The row [info_to_row] writes for a listing during the crawl has 16
    cells, and they are, column by column, the 16 base columns that the
    detail run later writes for the same listing. *)
Theorem listing_row_matches_base_columns (gbk : N → bool) (i : info) :
  length (info_to_row gbk i) = 16%nat
  ∧ Some <$> info_to_row gbk i
    = (fun c => csv_row gbk (build_base_row i) !! c) <$> BASE_COLUMNS.
Proof.
  split; [reflexivity|].
  rewrite info_to_row_cells.
  transitivity ((fun o => Some (filtrate gbk (get_or_empty o)))
                  <$> ((fun c => build_base_row i !! c) <$> (base_items i).*1)).
  - unfold build_base_row. rewrite list_to_map_keys.
    + by rewrite <- !list_fmap_compose.
    + rewrite base_items_keys. apply base_columns_nodup.
  - rewrite base_items_keys, <- list_fmap_compose.
    apply list_fmap_ext. intros j c Hj. unfold compose.
    rewrite csv_row_lookup; [done|].
    apply base_in_headers. by apply list_elem_of_lookup_2 in Hj.
Qed.

Lemma status_not_detail : STATUS ∉ DETAIL_COLUMNS.
Proof. apply (bool_decide_unpack _). vm_compute. exact I. Qed.

Lemma base_not_detail (c : pystr) :
  c ∈ BASE_COLUMNS → (c ∉ DETAIL_COLUMNS) ∧ (c ≠ STATUS).
Proof.
  intros Hc. unfold BASE_COLUMNS in Hc.
  repeat (apply elem_of_cons in Hc as [-> | Hc];
          [split; apply (bool_decide_unpack _); vm_compute; exact I|]).
  by apply elem_of_nil in Hc.
Qed.

Lemma merge_detail_lookup (gbk : N → bool) (row detail_data : gmap pystr pystr)
    (k : pystr) :
  merge_detail gbk row detail_data !! k =
  if bool_decide (k ∈ DETAIL_COLUMNS)
  then Some (filtrate gbk (strip (default [] (detail_data !! k))))
  else if bool_decide (k = STATUS)
       then match detail_data !! STATUS with
            | Some s => Some s
            | None => row !! STATUS
            end
       else row !! k.
Proof.
  unfold merge_detail.
  rewrite (foldl_insert_lookup
             (fun column => filtrate gbk (strip (default [] (detail_data !! column))))).
  case_bool_decide as Hd; [done|].
  case_bool_decide as Hs.
  - subst k. destruct (detail_data !! STATUS); [|done]. by rewrite lookup_insert_eq.
  - destruct (detail_data !! STATUS); [|done]. by rewrite lookup_insert_ne.
Qed.

Lemma merge_detail_base (gbk : N → bool) (row detail_data : gmap pystr pystr)
    (c : pystr) :
  c ∈ BASE_COLUMNS → merge_detail gbk row detail_data !! c = row !! c.
Proof.
  intros Hb. apply base_not_detail in Hb as [Hd Hs].
  rewrite merge_detail_lookup. by rewrite !bool_decide_eq_false_2.
Qed.

(** X7. [merge_detail] writes the 16 detail columns and, when the detail
    record has one, the status; every other key of the row, the base
    columns among them, keeps its value, and a row without status stays
    without one when the record has none. *)
Theorem merge_detail_frame (gbk : N → bool) (row detail_data : gmap pystr pystr)
    (k : pystr) :
  (k ∉ DETAIL_COLUMNS → k ≠ STATUS →
   merge_detail gbk row detail_data !! k = row !! k)
  ∧ (k ∈ BASE_COLUMNS → merge_detail gbk row detail_data !! k = row !! k)
  ∧ merge_detail gbk row detail_data !! STATUS
    = match detail_data !! STATUS with
      | Some s => Some s
      | None => row !! STATUS
      end.
Proof.
  split; [|split].
  - intros Hd Hs. rewrite merge_detail_lookup.
    by rewrite !bool_decide_eq_false_2.
  - apply merge_detail_base.
  - rewrite merge_detail_lookup.
    rewrite bool_decide_eq_false_2 by apply status_not_detail.
    by rewrite bool_decide_eq_true_2.
Qed.

(** X8. The row [write_csv] hands to the writer has a value for every one
    of the 33 field names, each made of GBK-encodable characters only; keys
    that are no field name are left alone; and normalising a row twice
    gives the same row as normalising it once. *)
Theorem csv_row_complete (gbk : N → bool) (row : gmap pystr pystr) (c : pystr) :
  length headers = 33%nat
  ∧ (c ∈ headers →
     csv_row gbk row !! c = Some (filtrate gbk (default [] (row !! c)))
     ∧ Forall (fun x => gbk x = true) (default [] (csv_row gbk row !! c)))
  ∧ (c ∉ headers → csv_row gbk row !! c = row !! c)
  ∧ csv_row gbk (csv_row gbk row) = csv_row gbk row.
Proof.
  split; [reflexivity|]. split; [|split].
  - intros Hc. rewrite csv_row_lookup by done. split; [done|]. simpl.
    apply Forall_forall. intros x Hx. unfold filtrate in Hx.
    by apply list_elem_of_filter in Hx as [? _].
  - apply csv_row_other.
  - apply map_eq. intros k. destruct (decide (k ∈ headers)) as [Hk|Hk].
    + rewrite !csv_row_lookup by done. simpl. f_equal.
      unfold filtrate. apply list_filter_filter_l. intros x Hx. exact Hx.
    + by rewrite !csv_row_other.
Qed.

(** ** The loop of the detail run *)

Lemma bind_returns {A B} (m : M A) (k : A → M B) (w w' : world) (a : A) :
  m w = (Return a, w') → (m ≫= k) w = k a w'.
Proof. intros H. unfold mbind, M_bind, Net.bind. by rewrite H. Qed.

(** A duration between zero and the longest sleep of the clock is slept. *)
Lemma sleep_secs_returns (clock_max : Q) (secs lo hi : pyfloat) (w : world) :
  le zero secs = true → le secs (Fin clock_max) = true →
  sleep_secs clock_max secs lo hi w = sleep lo hi w.
Proof.
  destruct secs as [| |q|]; simpl; try done.
  intros H0 Hq. rewrite H0, Hq. simpl.
  apply Qle_bool_iff in H0, Hq.
  assert (Qle_bool (- clock_max) q = true) as ->; [|done].
  apply Qle_bool_iff. apply Qle_trans with 0%Q; [|done].
  change 0%Q with (- 0)%Q. apply Qopp_le_compat. by apply Qle_trans with q.
Qed.

Lemma print_returns (console : N → bool) (text : pystr) (w : world) :
  (∀ c, console c = true) → print console text w = (Return tt, w).
Proof.
  intros Hc. unfold print.
  assert (forallb (fun c => (c <? 128) || console c) text = true) as ->; [|done].
  apply forallb_forall. intros c _. by rewrite Hc, orb_true_r.
Qed.

Section DetailLoop.
Variable gbk : N → bool.
Variable net : nat → pystr → outcome.
Variable urlparse : pystr → result (pystr * pystr).
Variable pool : list pystr.
Variable etree_HTML : pystr → parsed.
Variables min_delay max_delay : pyfloat.
Variable console : N → bool.
Variable uniform : pyfloat → pyfloat → pyfloat.
Variable clock_max : Q.

Lemma fetch_detail_unfold (row : gmap pystr pystr) (url : pystr) (w : world) :
  fetch_detail gbk net urlparse pool etree_HTML row url w =
  match request_detail net urlparse pool url 3 w with
  | (Return html, w') =>
      match parse_detail etree_HTML html with
      | Return d => (Return (merge_detail gbk row d, u "ok"), w')
      | Raise e => (Return (<[STATUS := failure e]> row,
                            u "failed (" ++ msg e ++ u ")"), w')
      end
  | (Raise e, w') => (Return (<[STATUS := failure e]> row,
                              u "failed (" ++ msg e ++ u ")"), w')
  end.
Proof.
  unfold fetch_detail, try_except, mbind, M_bind, Net.bind, lift.
  destruct (request_detail net urlparse pool url 3 w) as [[html|e] w']; [|done].
  by destruct (parse_detail etree_HTML html).
Qed.

Lemma enrich_unfold (row : gmap pystr pystr) (url : pystr) (w : world) :
  enrich gbk net urlparse pool etree_HTML row url w =
  match request_detail net urlparse pool url 3 w with
  | (Return html, w') =>
      match parse_detail etree_HTML html with
      | Return d => (Return (merge_detail gbk row d), w')
      | Raise e => (Return (<[STATUS := failure e]> row), w')
      end
  | (Raise e, w') => (Return (<[STATUS := failure e]> row), w')
  end.
Proof.
  unfold enrich. unfold mbind, M_bind, Net.bind at 1. rewrite fetch_detail_unfold.
  destruct (request_detail net urlparse pool url 3 w) as [[html|e] w']; [|done].
  by destruct (parse_detail etree_HTML html).
Qed.

Lemma build_base_row_ok (i : info) : row_ok (build_base_row i).
Proof.
  intros k Hk. apply base_in_headers. rewrite <- (base_items_keys i).
  unfold build_base_row in Hk.
  destruct (decide (k ∈ (base_items i).*1)) as [Hin|Hin]; [done|].
  apply not_elem_of_list_to_map_1 in Hin.
  rewrite Hin in Hk. by destruct Hk.
Qed.

Lemma status_in_headers : STATUS ∈ headers.
Proof. unfold headers. rewrite !elem_of_app. right. right. apply list_elem_of_here. Qed.

Lemma detail_in_headers (c : pystr) : c ∈ DETAIL_COLUMNS → c ∈ headers.
Proof. intros Hc. unfold headers. rewrite !elem_of_app. right. by left. Qed.

Lemma merge_detail_ok (row d : gmap pystr pystr) :
  row_ok row → row_ok (merge_detail gbk row d).
Proof.
  intros Hrow k Hk. rewrite merge_detail_lookup in Hk.
  case_bool_decide as Hd; [by apply detail_in_headers|].
  case_bool_decide as Hs; [subst; apply status_in_headers|].
  by apply Hrow.
Qed.

Lemma insert_status_ok (row : gmap pystr pystr) (s : pystr) :
  row_ok row → row_ok (<[STATUS := s]> row).
Proof.
  intros Hrow k Hk. destruct (decide (k = STATUS)) as [->|Hs].
  - apply status_in_headers.
  - rewrite lookup_insert_ne in Hk by done. by apply Hrow.
Qed.

Lemma fetch_detail_returns (row : gmap pystr pystr) (url : pystr) (w : world) :
  row_ok row →
  ∃ r w',
    fetch_detail gbk net urlparse pool etree_HTML row url w = (Return r, w')
    ∧ row_ok r.1
    ∧ ∀ c, c ∈ BASE_COLUMNS → r.1 !! c = row !! c.
Proof.
  intros Hrow. rewrite fetch_detail_unfold.
  assert (∀ s c, c ∈ BASE_COLUMNS → <[STATUS := s]> row !! c = row !! c) as Hst.
  { intros s c Hc. apply base_not_detail in Hc as [_ Hc]. by rewrite lookup_insert_ne. }
  destruct (request_detail net urlparse pool url 3 w) as [[html|e] w'].
  - destruct (parse_detail etree_HTML html) as [d|e].
    + exists (merge_detail gbk row d, u "ok"), w'. split; [done|].
      split; [by apply merge_detail_ok|].
      intros c Hc. by apply merge_detail_base.
    + eexists (_, _), w'.
      split; [done|]. split; [by apply insert_status_ok|by apply Hst].
  - eexists (_, _), w'.
    split; [done|]. split; [by apply insert_status_ok|by apply Hst].
Qed.

Hypothesis console_encodes : ∀ c, console c = true.
Hypothesis draw_not_negative : le zero (uniform min_delay max_delay) = true.
Hypothesis draw_not_too_long :
  le (uniform min_delay max_delay) (Fin clock_max) = true.

Lemma process_returns (i : info) (last : bool) (w : world) :
  ∃ row w',
    process gbk net urlparse pool etree_HTML min_delay max_delay
            console uniform clock_max i last w
    = (Return row, w')
    ∧ row_ok row
    ∧ ∀ c, c ∈ BASE_COLUMNS → row !! c = build_base_row i !! c.
Proof.
  unfold process. destruct (truthy _).
  - destruct (fetch_detail_returns (build_base_row i)
                (default [] (build_base_row i !! LINK)) w (build_base_row_ok i))
      as (r & w' & He & Hok & Hbase).
    rewrite (bind_returns _ _ _ _ _ He).
    rewrite (bind_returns _ _ _ _ _ (print_returns console _ w' console_encodes)).
    destruct last; [by eexists _, _|].
    unfold mbind, M_bind, Net.bind. rewrite sleep_secs_returns by done.
    by eexists _, _.
  - rewrite print_skip. exists (build_base_row i), w. split; [done|].
    split; [apply build_base_row_ok|done].
Qed.

Lemma main_loop_returns (infos : list info) (w : world) :
  ∃ rows w',
    main_loop gbk net urlparse pool etree_HTML min_delay max_delay
              console uniform clock_max infos w
    = (Return rows, w')
    ∧ length rows = length infos
    ∧ Forall row_ok rows
    ∧ Forall2 (fun i row => ∀ c, c ∈ BASE_COLUMNS →
                                 row !! c = build_base_row i !! c) infos rows.
Proof.
  revert w. induction infos as [|i infos IH]; intros w.
  - exists [], w. repeat split; constructor.
  - cbn [main_loop]. unfold mbind, M_bind, Net.bind.
    destruct (process_returns i (bool_decide (infos = [])) w)
      as (row & w1 & -> & Hok & Hbase).
    destruct (IH w1) as (rows & w2 & -> & Hlen & Hoks & Hbases).
    exists (row :: rows), w2. split; [done|]. split; [simpl; by rewrite Hlen|].
    split; by constructor.
Qed.

End DetailLoop.

(** X9. On a console that encodes every character, and when the duration
    drawn for the pause between two records is not negative and not longer
    than the longest sleep the clock accepts, the loop of the detail run
    does not raise, whatever the network, the parser and the User-Agent pool
    do: it returns one row per listing, in order; every key of a row is a
    field name of the CSV writer; and the base columns of a row are those of
    its listing, untouched by the enrichment. *)
Theorem main_loop_total (gbk : N → bool) (net : nat → pystr → outcome)
    (urlparse : pystr → result (pystr * pystr)) (pool : list pystr)
    (etree_HTML : pystr → parsed) (min_delay max_delay : pyfloat)
    (console : N → bool) (uniform : pyfloat → pyfloat → pyfloat)
    (clock_max : Q) (infos : list info) (w : world) :
  (∀ c, console c = true) →
  le zero (uniform min_delay max_delay) = true →
  le (uniform min_delay max_delay) (Fin clock_max) = true →
  ∃ rows w',
    main_loop gbk net urlparse pool etree_HTML min_delay max_delay
              console uniform clock_max infos w
    = (Return rows, w')
    ∧ length rows = length infos
    ∧ Forall row_ok rows
    ∧ Forall2 (fun i row => ∀ c, c ∈ BASE_COLUMNS →
                                 row !! c = build_base_row i !! c) infos rows.
Proof. intros Hc H0 Hm. by apply main_loop_returns. Qed.

Lemma main_loop_total_witness :
  ∃ rows w',
    main_loop ascii_only (fun _ _ => Responds good_body) lianjia one_agent
              (fun _ => ParseTree detail_tree) zero (Fin 2) any_char lower_end
              clock_limit [full_record; unlinked; full_record] start
    = (Return rows, w')
    ∧ length rows = 3%nat
    ∧ Forall row_ok rows
    ∧ Forall2 (fun i row => ∀ c, c ∈ BASE_COLUMNS →
                                 row !! c = build_base_row i !! c)
              [full_record; unlinked; full_record] rows.
Proof.
  apply (main_loop_total ascii_only (fun _ _ => Responds good_body) lianjia
           one_agent (fun _ => ParseTree detail_tree) zero (Fin 2) any_char
           lower_end clock_limit [full_record; unlinked; full_record] start).
  - intros c. reflexivity.
  - reflexivity.
  - reflexivity.
Defined.

Lemma csv_row_keys (gbk : N → bool) (row : gmap pystr pystr) (c : pystr) :
  row_ok row → is_Some (csv_row gbk row !! c) ↔ c ∈ headers.
Proof.
  intros Hrow. split.
  - intros Hc. destruct (decide (c ∈ headers)) as [Hin|Hin]; [done|].
    rewrite csv_row_other in Hc by done. by apply Hrow.
  - intros Hc. rewrite csv_row_lookup by done. by eexists.
Qed.

Lemma csv_row_values (gbk : N → bool) (row : gmap pystr pystr) (c v : pystr) :
  row_ok row → csv_row gbk row !! c = Some v → Forall (fun x => gbk x = true) v.
Proof.
  intros Hrow Hc. destruct (decide (c ∈ headers)) as [Hin|Hin].
  - rewrite csv_row_lookup in Hc by done. injection Hc as <-.
    apply Forall_forall. intros x Hx. unfold filtrate in Hx.
    by apply list_elem_of_filter in Hx as [? _].
  - rewrite csv_row_other in Hc by done.
    exfalso. apply Hin, Hrow. by eexists.
Qed.

(** X24. Under the same conditions on the console, the draw and the clock,
    for the delay window that [main] normalises from its arguments, the
    detail run from the loop to the rows it hands to the CSV writer does not
    raise: it hands over one row per listing kept by the limit, and the keys
    of every row are exactly the 33 field names, so that the writer finds no
    unknown key and no missing column, with every value made of
    GBK-encodable characters only. *)
Theorem main_total (gbk : N → bool) (net : nat → pystr → outcome)
    (urlparse : pystr → result (pystr * pystr)) (pool : list pystr)
    (etree_HTML : pystr → parsed) (console : N → bool)
    (uniform : pyfloat → pyfloat → pyfloat) (clock_max : Q)
    (arg_min arg_max : pyfloat)
    (limit : option Z) (infos : list info) (w : world) :
  (∀ c, console c = true) →
  le zero (uniform (delay_window arg_min arg_max).1
                   (delay_window arg_min arg_max).2) = true →
  le (uniform (delay_window arg_min arg_max).1
              (delay_window arg_min arg_max).2) (Fin clock_max) = true →
  ∃ rows w',
    main gbk net urlparse pool etree_HTML console uniform clock_max
         arg_min arg_max limit infos w
    = (Return rows, w')
    ∧ length rows = length (limited limit infos)
    ∧ Forall (fun row => ∀ c, is_Some (row !! c) ↔ c ∈ headers) rows
    ∧ Forall (fun row => ∀ c v, row !! c = Some v →
                                Forall (fun x => gbk x = true) v) rows.
Proof.
  unfold main, delay_window. cbn [fst snd]. intros Hc H0 Hm.
  destruct (main_loop_returns gbk net urlparse pool etree_HTML
              (py_max zero arg_min) (py_max (py_max zero arg_min) arg_max)
              console uniform clock_max Hc H0 Hm
              (limited limit infos) w) as (rows & w' & Hr & Hlen & Hok & _).
  exists (write_csv gbk rows), w'. split; [|split; [|split]].
  - by rewrite (bind_returns _ _ _ _ _ Hr).
  - unfold write_csv. by rewrite length_fmap.
  - unfold write_csv. apply Forall_fmap. eapply Forall_impl; [exact Hok|].
    intros row Hrow c. by apply csv_row_keys.
  - unfold write_csv. apply Forall_fmap. eapply Forall_impl; [exact Hok|].
    intros row Hrow c v. by apply csv_row_values.
Qed.

Lemma main_total_witness :
  ∃ rows w',
    main ascii_only (fun _ _ => Responds good_body) lianjia one_agent
         (fun _ => ParseTree detail_tree) any_char lower_end clock_limit
         NaN (Fin 2) (Some 2%Z) [full_record; unlinked; full_record] start
    = (Return rows, w')
    ∧ length rows
      = length (limited (Some 2%Z) [full_record; unlinked; full_record])
    ∧ Forall (fun row => ∀ c, is_Some (row !! c) ↔ c ∈ headers) rows
    ∧ Forall (fun row => ∀ c v, row !! c = Some v →
                                Forall (fun x => ascii_only x = true) v) rows.
Proof.
  apply (main_total ascii_only (fun _ _ => Responds good_body) lianjia
           one_agent (fun _ => ParseTree detail_tree) any_char lower_end
           clock_limit NaN (Fin 2) (Some 2%Z)
           [full_record; unlinked; full_record] start).
  - intros c. reflexivity.
  - reflexivity.
  - reflexivity.
Defined.

(** X25. Two statements of the loop body stand after the [try] block, and
    what they raise ends the whole loop, with the rows collected so far
    lost: for a listing with a link, the loop raises a [UnicodeEncodeError]
    when the link holds a character the console cannot encode, and, on a
    console that encodes every character, it raises an [OverflowError]
    when the listing is not the last one and the duration drawn for the
    pause is infinite. *)
Theorem loop_raises_after_try (gbk : N → bool) (net : nat → pystr → outcome)
    (urlparse : pystr → result (pystr * pystr)) (pool : list pystr)
    (etree_HTML : pystr → parsed) (min_delay max_delay : pyfloat)
    (console : N → bool) (uniform : pyfloat → pyfloat → pyfloat)
    (clock_max : Q) (i : info) (rest : list info) (w : world) :
  truthy (default [] (build_base_row i !! LINK)) = true →
  ((∃ c, c ∈ default [] (build_base_row i !! LINK)
         ∧ (c <? 128) = false ∧ console c = false) →
   ∃ e w',
     main_loop gbk net urlparse pool etree_HTML min_delay max_delay
               console uniform clock_max (i :: rest) w = (Raise e, w')
     ∧ kind e = UnicodeEncodeError)
  ∧ ((∀ c, console c = true) → rest ≠ [] →
     uniform min_delay max_delay = PosInf →
     ∃ e w',
       main_loop gbk net urlparse pool etree_HTML min_delay max_delay
                 console uniform clock_max (i :: rest) w = (Raise e, w')
       ∧ kind e = OverflowError).
Proof.
  intros Hl.
  destruct (fetch_detail_returns gbk net urlparse pool etree_HTML
              (build_base_row i) (default [] (build_base_row i !! LINK)) w
              (build_base_row_ok i)) as (r & w' & He & _).
  split.
  - intros (c & Hin & Hc & Hk).
    eexists _, w'. cbn [main_loop]. unfold process. rewrite Hl.
    unfold mbind, M_bind, Net.bind. rewrite He. unfold print.
    destruct (forallb _ _) eqn:Hf; [|done].
    exfalso. rewrite forallb_app in Hf. apply andb_true_iff in Hf as [Hf _].
    rewrite forallb_forall in Hf. specialize (Hf c).
    rewrite Hc, Hk in Hf. discriminate Hf. by apply list_elem_of_In.
  - intros Hc Hr Hu.
    eexists _, w'. cbn [main_loop]. unfold process. rewrite Hl.
    rewrite bool_decide_eq_false_2 by done.
    unfold mbind, M_bind, Net.bind at 1 2. rewrite He.
    unfold mbind, M_bind, Net.bind at 1 2. rewrite print_returns by done.
    unfold mbind, M_bind, Net.bind. by rewrite Hu.
Qed.

Lemma loop_raises_after_try_witness :
  (∃ e w',
     main_loop ascii_only (always good_body) lianjia one_agent
               (fun _ => ParseTree detail_tree) zero (Fin 2) ascii_only
               lower_end clock_limit [surrogate_record; full_record] start
     = (Raise e, w')
     ∧ kind e = UnicodeEncodeError)
  ∧ (∃ e w',
       main_loop ascii_only (always good_body) lianjia one_agent
                 (fun _ => ParseTree detail_tree) zero PosInf any_char
                 endless clock_limit [full_record; full_record] start
       = (Raise e, w')
       ∧ kind e = OverflowError).
Proof.
  split.
  - apply (proj1 (loop_raises_after_try ascii_only (always good_body) lianjia
                    one_agent (fun _ => ParseTree detail_tree) zero (Fin 2)
                    ascii_only lower_end clock_limit surrogate_record
                    [full_record] start ltac:(reflexivity))).
    exists 56448. split; [|split; reflexivity].
    vm_compute. apply list_elem_of_In. do 10 right. left. reflexivity.
  - apply (proj2 (loop_raises_after_try ascii_only (always good_body) lianjia
                    one_agent (fun _ => ParseTree detail_tree) zero PosInf
                    any_char endless clock_limit full_record
                    [full_record] start ltac:(reflexivity))).
    + intros c. reflexivity.
    + discriminate.
    + reflexivity.
Defined.

(** X10. When the fetch or the parse of a detail page raises, the
    exception stops at the record: the row is the base row plus a status
    that starts with the failure mark and is at most 120 characters long,
    and no detail column is written. *)
Theorem enrich_records_failure (gbk : N → bool) (net : nat → pystr → outcome)
    (urlparse : pystr → result (pystr * pystr)) (pool : list pystr)
    (etree_HTML : pystr → parsed) (row : gmap pystr pystr) (url : pystr)
    (w : world) (e : exn) :
  (request_detail net urlparse pool url 3 w).1 = Raise e
  ∨ (∃ html, (request_detail net urlparse pool url 3 w).1 = Return html
             ∧ parse_detail etree_HTML html = Raise e) →
  enrich gbk net urlparse pool etree_HTML row url w
  = (Return (<[STATUS := failure e]> row),
     (request_detail net urlparse pool url 3 w).2)
  ∧ (length (failure e) ≤ 120)%nat
  ∧ failure e = take 120 (u "failed: " ++ msg e)
  ∧ ∀ c, c ≠ STATUS → <[STATUS := failure e]> row !! c = row !! c.
Proof.
  intros H. split; [|split; [|split]].
  - rewrite enrich_unfold.
    destruct (request_detail net urlparse pool url 3 w) as [[html|e'] w'];
      simpl in H |- *.
    + destruct H as [H|(html' & [= <-] & ->)]; done.
    + destruct H as [[= ->]|(html' & H & _)]; done.
  - unfold failure. rewrite length_take. lia.
  - done.
  - intros c Hc. by rewrite lookup_insert_ne.
Qed.

Lemma enrich_records_failure_witness :
  enrich ascii_only (always blocked_body) lianjia one_agent
         (fun _ => ParseTree detail_tree) (build_base_row unlinked) detail_url start
  = (Return (<[STATUS := failure (Exn RuntimeError
                                     (u "Blocked by anti-bot verification"))]>
               (build_base_row unlinked)),
     (request_detail (always blocked_body) lianjia one_agent detail_url 3 start).2).
Proof.
  apply (enrich_records_failure ascii_only (always blocked_body) lianjia one_agent
           (fun _ => ParseTree detail_tree) (build_base_row unlinked) detail_url
           start (Exn RuntimeError (u "Blocked by anti-bot verification"))).
  left. vm_compute. reflexivity.
Defined.



(** X12. A login-gated page that is fetched at the first attempt (there is
    one only for a URL that [urlparse] accepts and a pool that is not empty)
    and that the parser turns into a tree gives a row whose status is
    [login_required], whose 16 detail columns are all empty and whose base
    columns are unchanged. *)
Theorem login_page_marks_row (gbk : N → bool) (net : nat → pystr → outcome)
    (urlparse : pystr → result (pystr * pystr)) (pool : list pystr)
    (etree_HTML : pystr → parsed) (row : gmap pystr pystr) (url : pystr)
    (w : world)
    (html : pystr) (tree : node) (parsed : pystr * pystr) :
  urlparse url = Return parsed →
  pool ≠ [] →
  succeeds (net (calls (prewarm net urlparse url w).2) url) = Some html →
  etree_HTML html = ParseTree tree →
  login_marked html = true →
  ∃ row',
    enrich gbk net urlparse pool etree_HTML row url w
    = (Return row', advance (prewarm net urlparse url w).2 1 [fetch urlparse url])
    ∧ row' !! STATUS = Some (u "login_required")
    ∧ (∀ c, c ∈ DETAIL_COLUMNS → row' !! c = Some [])
    ∧ (∀ c, c ∈ BASE_COLUMNS → row' !! c = row !! c).
Proof.
  intros Hu Hp Hs Ht Hm.
  exists (merge_detail gbk row {[ STATUS := u "login_required" ]}).
  split; [|split; [|split]].
  - rewrite enrich_unfold, (request_detail_attempts _ _ _ Hp _ _ _ _ Hu).
    rewrite (attempts_succeeds net urlparse pool Hp url 3 0 3 html);
      [|lia|intros j Hj; lia|done].
    unfold parse_detail, parse_detail_parsed. rewrite Ht.
    unfold login_marked in Hm. by rewrite Hm.
  - rewrite merge_detail_lookup.
    rewrite bool_decide_eq_false_2 by apply status_not_detail.
    rewrite bool_decide_eq_true_2 by done. by rewrite lookup_singleton_eq.
  - intros c Hc. rewrite merge_detail_lookup.
    rewrite bool_decide_eq_true_2 by done.
    rewrite lookup_singleton_ne; [done|].
    intros <-. by apply status_not_detail.
  - intros c Hc. by apply merge_detail_base.
Qed.

Lemma login_page_marks_row_witness :
  ∃ row',
    enrich ascii_only (always login_body) lianjia one_agent
           (fun _ => ParseTree detail_tree) (build_base_row unlinked) detail_url
           start
    = (Return row',
       advance (prewarm (always login_body) lianjia detail_url start).2 1
               [fetch lianjia detail_url])
    ∧ row' !! STATUS = Some (u "login_required")
    ∧ (∀ c, c ∈ DETAIL_COLUMNS → row' !! c = Some [])
    ∧ (∀ c, c ∈ BASE_COLUMNS → row' !! c = build_base_row unlinked !! c).
Proof.
  apply (login_page_marks_row ascii_only (always login_body) lianjia one_agent
           (fun _ => ParseTree detail_tree) (build_base_row unlinked) detail_url
           start (u "<p>需登录后查看完整信息</p>") detail_tree
           (u "https", u "bj.lianjia.com")).
  - reflexivity.
  - discriminate.
  - vm_compute. reflexivity.
  - reflexivity.
  - vm_compute. reflexivity.
Defined.

(** X13. The record limit of the detail run always keeps a prefix of the
    listings. No limit and a limit of zero keep them all; a positive limit
    keeps that many, or all when there are fewer; a negative limit drops
    that many from the end. *)
Theorem limited_prefix (limit : option Z) (l : Z) (infos : list info) :
  (∃ rest, infos = limited limit infos ++ rest)
  ∧ limited None infos = infos
  ∧ limited (Some 0%Z) infos = infos
  ∧ ((0 < l)%Z →
     length (limited (Some l) infos) = (Z.to_nat l `min` length infos)%nat)
  ∧ ((l < 0)%Z →
     length (limited (Some l) infos) = (length infos - Z.to_nat (- l))%nat).
Proof.
  split; [|split; [done|split; [done|split]]].
  - unfold limited. destruct limit as [z|]; [|exists []; by rewrite app_nil_r].
    destruct (z =? 0)%Z; [exists []; by rewrite app_nil_r|].
    destruct (0 <? z)%Z; eexists; symmetry; apply take_drop.
  - intros Hl. unfold limited.
    rewrite (proj2 (Z.eqb_neq l 0)) by lia.
    rewrite (proj2 (Z.ltb_lt 0 l)) by lia. apply length_take.
  - intros Hl. unfold limited.
    rewrite (proj2 (Z.eqb_neq l 0)) by lia.
    rewrite (proj2 (Z.ltb_ge 0 l)) by lia. rewrite length_take. lia.
Qed.

(** ** Bounds on the fetchers *)

Section DetailBounds.
Variable net : nat → pystr → outcome.
Variable urlparse : pystr → result (pystr * pystr).
Variable pool : list pystr.
Variable url : pystr.
Variable retries : Z.

Lemma attempts_shape (n : nat) (last_exc : option exn) (w : world) :
  pool ≠ [] →
  ∃ k tr,
    (k ≤ n)%nat
    ∧ (attempts net urlparse pool url retries n last_exc w).2 = advance w k tr
    ∧ (tr = retried (fetch urlparse url) jitter k
       ∨ ∃ k', k = S k'
               ∧ tr = retried (fetch urlparse url) jitter k' ++ [fetch urlparse url]).
Proof.
  intros Hp. revert last_exc w. induction n as [|n IH]; intros last_exc w.
  - exists 0%nat, []. split; [lia|]. split; [|by left].
    rewrite advance_0. simpl. by destruct last_exc.
  - rewrite attempts_S by done.
    assert (∀ last_exc',
      ∃ k tr, (k ≤ S n)%nat
        ∧ (attempts net urlparse pool url retries n last_exc'
             (advance w 1 [fetch urlparse url; jitter])).2 = advance w k tr
        ∧ (tr = retried (fetch urlparse url) jitter k
           ∨ ∃ k', k = S k'
                   ∧ tr = retried (fetch urlparse url) jitter k'
                          ++ [fetch urlparse url])) as Hrec.
    { intros last_exc'.
      destruct (IH last_exc' (advance w 1 [fetch urlparse url; jitter]))
        as (k & tr & Hk & -> & Htr).
      exists (S k), ([fetch urlparse url; jitter] ++ tr).
      split; [lia|]. split.
      - rewrite advance_advance. by replace (k + 1)%nat with (S k) by lia.
      - destruct Htr as [->|(k' & -> & ->)]; [by left|].
        right. exists (S k'). split; [done|]. by rewrite retried_S, <- app_assoc. }
    assert (∃ k tr, (k ≤ S n)%nat
        ∧ advance w 1 [fetch urlparse url] = advance w k tr
        ∧ (tr = retried (fetch urlparse url) jitter k
           ∨ ∃ k', k = S k'
                   ∧ tr = retried (fetch urlparse url) jitter k'
                          ++ [fetch urlparse url])) as Hone.
    { exists 1%nat, [fetch urlparse url]. split; [lia|]. split; [done|].
      right. by exists 0%nat. }
    destruct (net (calls w) url) as [r|m]; [|apply Hrec].
    destruct ((status_code r =? 200)%Z && truthy (text r)); [|apply Hrec].
    by destruct (blocked (apparent_text r)).
Qed.

Lemma attempts_return (n : nat) (last_exc : option exn) (w : world)
    (body : pystr) :
  (attempts net urlparse pool url retries n last_exc w).1 = Return body →
  blocked body = false
  ∧ ∃ i r, net i url = Responds r ∧ status_code r = 200%Z ∧ text r ≠ []
           ∧ body = apparent_text r.
Proof.
  revert last_exc w. induction n as [|n IH]; intros last_exc w.
  - simpl. by destruct last_exc.
  - destruct (decide (pool = [])) as [Hp|Hp].
    { cbn [attempts]. unfold choose_user_agent. by rewrite Hp. }
    rewrite attempts_S by done.
    destruct (net (calls w) url) as [r|m] eqn:Ho; [|apply IH].
    destruct ((status_code r =? 200)%Z && truthy (text r)) eqn:Hc; [|apply IH].
    destruct (blocked (apparent_text r)) eqn:Hb; [done|].
    simpl. intros [= <-]. split; [done|].
    apply andb_true_iff in Hc as [Hs Ht].
    exists (calls w), r. split; [done|]. split; [by apply Z.eqb_eq|].
    split; [by apply truthy_nonempty|done].
Qed.

End DetailBounds.

(** X14. A call of [request_detail] with a URL that [urlparse] rejects
    raises the error of [urlparse] and leaves the state of the process as it
    was: no warm-up, no request. With a URL that [urlparse] accepts and a
    non-empty User-Agent pool, whatever the network does, the call sends,
    after its warm-up, at most [retries] requests, all to the URL asked for;
    the log it adds is a run of request-and-sleep pairs, followed by one
    last request when the call ended on a served or a blocked body. *)
Theorem request_detail_shape (net : nat → pystr → outcome)
    (urlparse : pystr → result (pystr * pystr)) (pool : list pystr) (url : pystr)
    (retries : Z) (w : world) :
  pool ≠ [] →
  (∀ e, urlparse url = Raise e →
        request_detail net urlparse pool url retries w = (Raise e, w))
  ∧ (∀ parsed, urlparse url = Return parsed →
     ∃ k tr,
       (k ≤ Z.to_nat retries)%nat
       ∧ (request_detail net urlparse pool url retries w).2
         = advance (prewarm net urlparse url w).2 k tr
       ∧ fetches url tr = k
       ∧ (tr = retried (fetch urlparse url) jitter k
          ∨ ∃ k', k = S k'
                  ∧ tr = retried (fetch urlparse url) jitter k'
                         ++ [fetch urlparse url])).
Proof.
  intros Hp. split; [intros e Hu; by apply request_detail_rejected|].
  intros parsed Hu. rewrite (request_detail_attempts _ _ _ Hp _ _ _ _ Hu).
  destruct (attempts_shape net urlparse pool url retries (Z.to_nat retries) None
              (prewarm net urlparse url w).2 Hp) as (k & tr & Hk & Hw & Htr).
  exists k, tr. split; [done|]. split; [done|]. split; [|done].
  destruct Htr as [->|(k' & -> & ->)]; [apply fetches_retried|].
  unfold fetches. rewrite filter_app, length_app.
  fold (fetches url (retried (fetch urlparse url) jitter k')).
  rewrite fetches_retried. rewrite filter_cons_True.
  - simpl. lia.
  - simpl. by rewrite bool_decide_eq_true_2.
Qed.

Lemma request_detail_shape_witness :
  ∃ k tr,
    (k ≤ Z.to_nat 3)%nat
    ∧ (request_detail timeout_then_good lianjia one_agent detail_url 3 start).2
      = advance (prewarm timeout_then_good lianjia detail_url start).2 k tr
    ∧ fetches detail_url tr = k
    ∧ (tr = retried (fetch lianjia detail_url) jitter k
       ∨ ∃ k', k = S k'
               ∧ tr = retried (fetch lianjia detail_url) jitter k'
                      ++ [fetch lianjia detail_url]).
Proof.
  apply (proj2 (request_detail_shape timeout_then_good lianjia one_agent
                  detail_url 3 start ltac:(discriminate))
           (u "https", u "bj.lianjia.com")).
  reflexivity.
Defined.

(** X15. A body that [request_detail] returns holds no anti-bot signature,
    and it is the re-decoded text of a response with status 200 and a
    non-empty text that the network gave for that URL. *)
Theorem request_detail_returns_unblocked (net : nat → pystr → outcome)
    (urlparse : pystr → result (pystr * pystr)) (pool : list pystr) (url : pystr)
    (retries : Z) (w : world) (body : pystr) :
  (request_detail net urlparse pool url retries w).1 = Return body →
  blocked body = false
  ∧ ∃ i r, net i url = Responds r ∧ status_code r = 200%Z ∧ text r ≠ []
           ∧ body = apparent_text r.
Proof.
  destruct (urlparse url) as [parsed|e] eqn:Hu.
  2: { unfold request_detail. by rewrite Hu. }
  destruct (decide (pool = [])) as [Hp|Hp].
  { unfold request_detail, choose_user_agent. by rewrite Hu, Hp. }
  rewrite (request_detail_attempts _ _ _ Hp _ _ _ _ Hu). apply attempts_return.
Qed.

Lemma request_detail_returns_unblocked_witness :
  blocked (u "<html>ok</html>") = false.
Proof.
  apply (request_detail_returns_unblocked timeout_then_good lianjia one_agent
           detail_url 3 start (u "<html>ok</html>")).
  vm_compute. reflexivity.
Defined.

(** X16. With a URL that [urlparse] accepts, a non-empty User-Agent pool
    and a retry bound that is zero or negative, [request_detail] fetches
    nothing and raises the exhausted-retries error, but it still sends the
    warm-up request to a host it has not warmed yet. With a URL that
    [urlparse] rejects it raises the error of [urlparse] instead, and sends
    nothing. *)
Theorem request_detail_no_attempts (net : nat → pystr → outcome)
    (urlparse : pystr → result (pystr * pystr)) (pool : list pystr) (url : pystr)
    (retries : Z) (w : world) :
  pool ≠ [] →
  (retries ≤ 0)%Z →
  (∀ e, urlparse url = Raise e →
        request_detail net urlparse pool url retries w = (Raise e, w))
  ∧ (∀ parsed, urlparse url = Return parsed →
     request_detail net urlparse pool url retries w
     = (Raise (Exn RuntimeError (exhausted url retries)),
        (prewarm net urlparse url w).2)
     ∧ (domain_of urlparse url ∉ prewarmed w →
        trace (prewarm net urlparse url w).2
        = trace w ++ [EvGet (referer_of urlparse url) 6 None])
     ∧ (domain_of urlparse url ∈ prewarmed w →
        (prewarm net urlparse url w).2 = w)).
Proof.
  intros Hp Hr. split; [intros e Hu; by apply request_detail_rejected|].
  intros parsed Hu. rewrite (request_detail_attempts _ _ _ Hp _ _ _ _ Hu).
  replace (Z.to_nat retries) with 0%nat by lia.
  split; [done|]. rewrite prewarm_returns. simpl. split.
  - intros Hd. by rewrite bool_decide_eq_false_2.
  - intros Hd. by rewrite bool_decide_eq_true_2.
Qed.

Lemma request_detail_no_attempts_witness :
  request_detail (always good_body) lianjia one_agent detail_url 0 start
  = (Raise (Exn RuntimeError (exhausted detail_url 0)),
     (prewarm (always good_body) lianjia detail_url start).2).
Proof.
  apply (proj2 (request_detail_no_attempts (always good_body) lianjia one_agent
                  detail_url 0 start ltac:(discriminate) ltac:(reflexivity))
           (u "https", u "bj.lianjia.com")).
  reflexivity.
Defined.

Section PageBounds.
Variable net : nat → pystr → outcome.
Variable PROFILE_USER_AGENT : pystr.
Variable USER_AGENTS : list pystr.
Variable http_error : response → pystr.
Variable url : pystr.
Variable headers : gmap pystr pystr.
Variable preferred : option pystr.

Lemma pick_cases :
  (∀ w, pick_user_agent PROFILE_USER_AGENT USER_AGENTS headers preferred w
        = (Return tt, w))
  ∨ (∃ e, ∀ w, pick_user_agent PROFILE_USER_AGENT USER_AGENTS headers preferred w
               = (Raise e, w)).
Proof.
  unfold pick_user_agent. destruct (truthy _); [by left|].
  destruct USER_AGENTS; [right; by eexists|by left].
Qed.

Lemma get_html_loop_shape (n : nat) (w : world) :
  ∃ k, (k ≤ n)%nat
       ∧ (get_html_loop net PROFILE_USER_AGENT USER_AGENTS http_error url headers
                        preferred n w).2
         = advance w k (page_log (page_get url headers) k).
Proof.
  destruct pick_cases as [Hpick|[e Hpick]].
  - assert (∃ k, (k ≤ n)%nat ∧ (k = 0%nat → n = 0%nat)
       ∧ (get_html_loop net PROFILE_USER_AGENT USER_AGENTS http_error url headers
                        preferred n w).2
         = advance w k (page_log (page_get url headers) k)) as (k & ? & _ & ?);
      [|by exists k].
    revert w. induction n as [|n IH]; intros w.
    { exists 0%nat. split; [lia|]. split; [done|]. by rewrite advance_0. }
    assert (∃ k, (k ≤ S n)%nat ∧ (k = 0%nat → S n = 0%nat)
       ∧ advance w 1 [page_get url headers]
         = advance w k (page_log (page_get url headers) k)) as Hone.
    { exists 1%nat. split; [lia|]. by split. }
    assert (n ≠ 0%nat →
            ∃ k, (k ≤ S n)%nat ∧ (k = 0%nat → S n = 0%nat)
       ∧ (get_html_loop net PROFILE_USER_AGENT USER_AGENTS http_error
            url headers preferred n
            (advance w 1 [page_get url headers; page_pause])).2
         = advance w k (page_log (page_get url headers) k)) as Hfail.
    { intros Hn.
      destruct (IH (advance w 1 [page_get url headers; page_pause]))
        as (k & Hk & Hk0 & Hw).
      destruct k as [|k']; [by specialize (Hk0 eq_refl)|].
      exists (S (S k')). split; [lia|]. split; [done|].
      rewrite Hw, advance_advance. unfold page_log.
      rewrite retried_S, <- app_assoc.
      by replace (S k' + 1)%nat with (S (S k')) by lia. }
    assert (∀ A (k : unit → M A) w',
              (pick_user_agent PROFILE_USER_AGENT USER_AGENTS headers preferred
                 ≫= k) w' = k tt w') as Hbind.
    { intros A k w'. unfold mbind, M_bind, Net.bind. by rewrite Hpick. }
    cbn [get_html_loop]. rewrite Hbind, bind_get.
    destruct (net (calls w) url) as [r|m].
    + destruct (raise_for_status r); [|apply Hone].
      destruct n as [|n']; [apply Hone|].
      rewrite bind_sleep, advance_advance. by apply Hfail.
    + destruct n as [|n']; [apply Hone|].
      rewrite bind_sleep, advance_advance. by apply Hfail.
  - exists 0%nat. split; [lia|]. rewrite advance_0.
    destruct n as [|n]; [done|].
    cbn [get_html_loop]. unfold mbind, M_bind, Net.bind. by rewrite Hpick.
Qed.

End PageBounds.

(** X17. Whatever the network and the configuration, a call of [get_html]
    sends at most [retries] requests, sleeps only between two requests and
    never after the last one. *)
Theorem get_html_shape (net : nat → pystr → outcome) (PROFILE_USER_AGENT : pystr)
    (USER_AGENTS : list pystr) (http_error : response → pystr) (url : pystr)
    (headers : gmap pystr pystr) (retries : Z) (preferred : option pystr)
    (w : world) :
  ∃ k, (k ≤ Z.to_nat retries)%nat
       ∧ (get_html net PROFILE_USER_AGENT USER_AGENTS http_error url headers
                   retries preferred w).2
         = advance w k (page_log (page_get url headers) k)
       ∧ (∀ tr, page_log (page_get url headers) k ≠ tr ++ [page_pause]).
Proof.
  destruct (get_html_loop_shape net PROFILE_USER_AGENT USER_AGENTS http_error
              url headers preferred (Z.to_nat retries) w) as (k & Hk & Hw).
  exists k. split; [done|]. split; [done|].
  intros tr Htr. destruct k as [|k']; simpl in Htr.
  - by destruct tr.
  - apply app_inj_tail in Htr as [_ Htr]. discriminate.
Qed.

(** ** The crawl of a page range *)

Section CrawlFacts.
Variable net : nat → pystr → outcome.
Variable PROFILE_USER_AGENT : pystr.
Variable USER_AGENTS : list pystr.
Variable http_error : response → pystr.
Variable re_search : pystr → pystr → option pystr.
Variable etree_HTML : pystr → parsed.
Variable gbk : N → bool.
Variable choice : list pystr → pystr.



Local Abbreviation configured := (configured PROFILE_USER_AGENT USER_AGENTS).

Lemma build_headers_returns (city : pystr) (page : Z) :
  configured →
  ∃ h, (∀ w, build_headers PROFILE_USER_AGENT USER_AGENTS choice city page
                           (Some PROFILE_USER_AGENT) w = (Return h, w))
       ∧ h !! u "Referer" = Some (page_url city page).
Proof.
  intros Hc. unfold build_headers.
  assert (∀ ua : pystr,
    (list_to_map
       [(u "User-Agent", ua); (u "Referer", page_url city page);
        (u "Accept", u "text/html,application/xhtml+xml,application/xml;q=0.9,image/avif,image/webp,*/*;q=0.8");
        (u "Accept-Language", u "zh-CN,zh;q=0.9,en;q=0.8");
        (u "Connection", u "keep-alive"); (u "Cache-Control", u "no-cache");
        (u "Pragma", u "no-cache")] : gmap pystr pystr) !! u "Referer"
    = Some (page_url city page)) as Href.
  { intros ua. apply elem_of_list_to_map_1.
    - apply (bool_decide_unpack _). vm_compute. exact I.
    - apply list_elem_of_further, list_elem_of_here. }
  change (default [] (Some PROFILE_USER_AGENT)) with PROFILE_USER_AGENT.
  destruct (truthy (str_or PROFILE_USER_AGENT PROFILE_USER_AGENT)) eqn:Ht.
  - eexists. split; [|apply Href].
    intros w. unfold mbind, M_bind, Net.bind, mret, M_ret, Net.ret. reflexivity.
  - destruct USER_AGENTS as [|a l] eqn:Hl.
    + exfalso. destruct Hc as [Hc|Hc]; [|done].
      unfold str_or in Ht. rewrite Hc in Ht. congruence.
    + eexists. split; [|apply Href].
      intros w. unfold mbind, M_bind, Net.bind, mret, M_ret, Net.ret. reflexivity.
Qed.



Lemma cycles_fruitless (url : pystr) (headers : gmap pystr pystr) (n : nat)
    (page_info : option (list info)) (last_error : option exn) (w : world) :
  USER_AGENTS ≠ [] →
  found page_info = false →
  (∀ j, (j < n)%nat → fruitless re_search etree_HTML (net (j + calls w)%nat url)) →
  ∃ r,
    cycles net PROFILE_USER_AGENT USER_AGENTS http_error re_search etree_HTML
           url headers n page_info last_error w
    = (Return r, advance w n (retried (page_get url headers) cycle_pause n))
    ∧ found r.1 = false.
Proof.
  intros Ha. revert page_info last_error w.
  induction n as [|n IH]; intros page_info last_error w Hf Hn.
  - exists (page_info, last_error). split; [|done]. simpl. by rewrite advance_0.
  - destruct (Hn 0%nat ltac:(lia)) as (r & Hr & Hs & He). simpl in Hr.
    assert (∀ j, (j < n)%nat →
              fruitless re_search etree_HTML
                (net (j + calls (advance w 1 [page_get url headers; cycle_pause]))%nat
                     url)) as Hn'.
    { intros j Hj. simpl.
      replace (j + S (calls w))%nat with (S j + calls w)%nat by lia.
      apply Hn. lia. }
    assert (get_html net PROFILE_USER_AGENT USER_AGENTS http_error url headers 3
                     (Some PROFILE_USER_AGENT) w
            = (Return (text r), advance w 1 [page_get url headers])) as Hg.
    { unfold get_html. change (Z.to_nat 3) with 3%nat.
      by apply get_html_loop_ok. }
    assert (cycle net PROFILE_USER_AGENT USER_AGENTS http_error re_search
                  etree_HTML url headers w
            = (Return (extract re_search etree_HTML (text r)),
               advance w 1 [page_get url headers])) as Hcyc.
    { unfold cycle, try_except. rewrite (bind_returns _ _ _ _ _ Hg).
      unfold lift, mbind, M_bind, Net.bind.
      by destruct (extract re_search etree_HTML (text r)). }
    cbn [cycles]. rewrite (bind_returns _ _ _ _ _ Hcyc).
    destruct (extract re_search etree_HTML (text r)) as [page_info'|e].
    + rewrite He. rewrite bind_sleep, advance_advance.
      change (advance w (0 + 1) _)
        with (advance w 1 [page_get url headers; cycle_pause]).
      destruct (IH page_info' last_error _ He Hn') as (r' & Hc & Hf').
      exists r'. split; [|done]. rewrite Hc, advance_advance, retried_S.
      by replace (n + 1)%nat with (S n) by lia.
    + rewrite bind_sleep, advance_advance.
      change (advance w (0 + 1) _)
        with (advance w 1 [page_get url headers; cycle_pause]).
      destruct (IH page_info (Some e) _ Hf Hn') as (r' & Hc & Hf').
      exists r'. split; [|done]. rewrite Hc, advance_advance, retried_S.
      by replace (n + 1)%nat with (S n) by lia.
Qed.

End CrawlFacts.



(** X19. A page whose five fetches are all served, but on which [extract]
    raises or finds nothing each time, costs exactly five requests, each
    with the page's own URL as Referer and each followed by a sleep, and
    adds nothing to the listings gathered nor to the CSV rows. *)
Theorem fruitless_page_skipped (net : nat → pystr → outcome)
    (PROFILE_USER_AGENT : pystr) (USER_AGENTS : list pystr)
    (http_error : response → pystr) (re_search : pystr → pystr → option pystr)
    (etree_HTML : pystr → parsed) (gbk : N → bool) (choice : list pystr → pystr)
    (city : pystr) (acc : list info * list (list pystr)) (page : Z) (w : world) :
  USER_AGENTS ≠ [] →
  (∀ j, (j < 5)%nat →
        fruitless re_search etree_HTML (net (j + calls w)%nat (page_url city page))) →
  crawl_page net PROFILE_USER_AGENT USER_AGENTS http_error re_search etree_HTML
             gbk choice city acc page w
  = (Return acc,
     advance w 5 (retried (EvGet (page_url city page) 6 (Some (page_url city page)))
                          cycle_pause 5)).
Proof.
  intros Ha Hn. unfold crawl_page.
  destruct (build_headers_returns PROFILE_USER_AGENT USER_AGENTS choice city page
              (or_intror Ha)) as (h & Hh & Href).
  rewrite (bind_returns _ _ _ _ _ (Hh w)).
  destruct (cycles_fruitless net PROFILE_USER_AGENT USER_AGENTS http_error
              re_search etree_HTML (page_url city page) h 5 None None w Ha
              eq_refl Hn) as (r & Hr & Hf).
  rewrite (bind_returns _ _ _ _ _ Hr). rewrite Hf.
  unfold page_get. by rewrite Href.
Qed.

Lemma fruitless_page_skipped_witness :
  crawl_page (always good_body) [] one_agent no_text no_match
             (fun _ => ParseTree page_without_items) ascii_only first_agent
             (u "bj") ([], []) 1 start
  = (Return ([], []),
     advance start 5
       (retried (EvGet (page_url (u "bj") 1) 6 (Some (page_url (u "bj") 1)))
                cycle_pause 5)).
Proof.
  apply (fruitless_page_skipped (always good_body) [] one_agent no_text no_match
           (fun _ => ParseTree page_without_items) ascii_only first_agent
           (u "bj") ([], []) 1 start).
  - discriminate.
  - intros j Hj. exists good_body. split; [reflexivity|]. split; [reflexivity|].
    vm_compute. reflexivity.
Defined.

(** ** Cookies *)

Lemma lstrip_elem (s : pystr) (x : N) : x ∈ lstrip s → x ∈ s.
Proof.
  induction s as [|a s IH]; [done|]. simpl.
  destruct (is_space a); [|done]. intros Hx. apply list_elem_of_further. by apply IH.
Qed.

Lemma elem_of_rev (s : pystr) (x : N) : x ∈ rev s ↔ x ∈ s.
Proof. rewrite !list_elem_of_In. symmetry. apply in_rev. Qed.

Lemma strip_elem (s : pystr) (x : N) : x ∈ strip s → x ∈ s.
Proof.
  unfold strip. intros Hx.
  rewrite elem_of_rev in Hx. apply lstrip_elem in Hx.
  rewrite elem_of_rev in Hx. by apply lstrip_elem in Hx.
Qed.

Lemma strip_fixed (s : pystr) :
  (∀ c r, s = c :: r → is_space c = false) →
  (∀ r c, s = r ++ [c] → is_space c = false) →
  strip s = s.
Proof.
  intros Hh Hl. unfold strip.
  assert (lstrip s = s) as ->.
  { destruct s as [|c r]; [done|]. apply lstrip_cons_id. by apply (Hh c r). }
  assert (lstrip (rev s) = rev s) as ->; [|apply rev_involutive].
  destruct (rev s) as [|c r] eqn:Hr; [done|].
  apply lstrip_cons_id. apply (Hl (rev r) c).
  apply (f_equal (@rev N)) in Hr. rewrite rev_involutive in Hr. by rewrite Hr.
Qed.

Lemma prefix_single (c a : N) (s : pystr) : prefix_of [c] (a :: s) = (c =? a).
Proof. simpl. by rewrite andb_true_r. Qed.

Lemma contains_single (c : N) (s : pystr) : contains [c] s = true ↔ c ∈ s.
Proof.
  induction s as [|a s IH].
  - simpl. split; [done|]. intros H. by apply elem_of_nil in H.
  - cbn [contains]. rewrite prefix_single, orb_true_iff, IH, elem_of_cons.
    by rewrite N.eqb_eq.
Qed.

Lemma split_go_single (c : N) (cur s : pystr) :
  c ∉ s → split_go [c] 0 cur s = [rev cur ++ s].
Proof.
  revert cur. induction s as [|a s IH]; intros cur Hc.
  - simpl. by rewrite app_nil_r.
  - apply not_elem_of_cons in Hc as [Ha Hc]. cbn [split_go].
    rewrite prefix_single. rewrite (proj2 (N.eqb_neq c a)) by done.
    rewrite IH by done. simpl. by rewrite <- app_assoc.
Qed.

Lemma split_go_cut (c : N) (cur p rest : pystr) :
  c ∉ p →
  split_go [c] 0 cur (p ++ c :: rest) = (rev cur ++ p) :: split_go [c] 0 [] rest.
Proof.
  revert cur. induction p as [|a p IH]; intros cur Hc.
  - cbn [app split_go]. rewrite prefix_single, N.eqb_refl. simpl.
    by rewrite app_nil_r.
  - apply not_elem_of_cons in Hc as [Ha Hc]. cbn [app split_go].
    rewrite prefix_single. rewrite (proj2 (N.eqb_neq c a)) by done.
    rewrite IH by done. simpl. by rewrite <- app_assoc.
Qed.

Lemma split_go_pieces (c : N) (cur s : pystr) :
  c ∉ cur → Forall (fun p => c ∉ p) (split_go [c] 0 cur s).
Proof.
  revert cur. induction s as [|a s IH]; intros cur Hc.
  - simpl. constructor; [|constructor]. by rewrite elem_of_rev.
  - cbn [split_go]. rewrite prefix_single.
    destruct (c =? a) eqn:Ha.
    + constructor; [by rewrite elem_of_rev|].
      apply IH. apply not_elem_of_nil.
    + apply IH. apply not_elem_of_cons. split; [|done].
      by apply N.eqb_neq in Ha.
Qed.

Lemma split_once_spec (c : N) (s k v : pystr) :
  split_once c s = Some (k, v) → s = k ++ c :: v ∧ c ∉ k.
Proof.
  revert k. induction s as [|a s IH]; intros k; [done|]. simpl.
  destruct (a =? c) eqn:Ha.
  - intros [= <- <-]. apply N.eqb_eq in Ha as ->. split; [done|apply not_elem_of_nil].
  - destruct (split_once c s) as [[k' v']|]; [|done]. simpl.
    intros [= <- <-]. destruct (IH k' eq_refl) as [-> Hk].
    split; [done|]. apply not_elem_of_cons. split; [|done].
    apply N.eqb_neq in Ha. congruence.
Qed.

Lemma split_once_cut (c : N) (k v : pystr) :
  c ∉ k → split_once c (k ++ c :: v) = Some (k, v).
Proof.
  induction k as [|a k IH]; intros Hc.
  - simpl. by rewrite N.eqb_refl.
  - apply not_elem_of_cons in Hc as [Ha Hc]. simpl.
    rewrite (proj2 (N.eqb_neq a c)) by congruence. by rewrite IH.
Qed.

(** What one piece of a cookie header adds to the cookies. *)
Lemma cookie_step_cases (cookies : gmap pystr pystr) (pair : pystr) :
  cookie_step cookies pair = cookies
  ∨ ∃ k v, cookie_step cookies pair = <[strip k := strip v]> cookies
           ∧ strip pair = k ++ 61 :: v ∧ (61 ∉ k) ∧ strip k ≠ [].
Proof.
  unfold cookie_step. destruct (negb _ || negb _); [by left|].
  destruct (split_once 61 (strip pair)) as [[k v]|] eqn:Hs; [|by left].
  destruct (truthy (strip k)) eqn:Hk; [|by left].
  right. exists k, v. apply split_once_spec in Hs as [Hs Hn].
  split; [done|]. split; [done|]. split; [done|]. by apply truthy_nonempty.
Qed.

Lemma cookie_step_union (cookies : gmap pystr pystr) (pair : pystr) :
  cookie_step cookies pair = cookie_step ∅ pair ∪ cookies.
Proof.
  unfold cookie_step. destruct (negb _ || negb _); [by rewrite map_empty_union|].
  destruct (split_once 61 (strip pair)) as [[k v]|]; [|by rewrite map_empty_union].
  destruct (truthy (strip k)); [|by rewrite map_empty_union].
  by rewrite insert_empty, insert_union_singleton_l.
Qed.

Lemma foldl_cookie_union (cookies : gmap pystr pystr) (pairs : list pystr) :
  foldl cookie_step cookies pairs = foldl cookie_step ∅ pairs ∪ cookies.
Proof.
  revert cookies. induction pairs as [|p pairs IH]; intros cookies; simpl.
  - by rewrite map_empty_union.
  - rewrite (IH (cookie_step cookies p)), (IH (cookie_step ∅ p)).
    rewrite (cookie_step_union cookies p). by rewrite map_union_assoc.
Qed.

Lemma parse_cookie_fold (raw : pystr) :
  parse_cookie_string (Some raw) = foldl cookie_step ∅ (split (u ";") raw).
Proof. unfold parse_cookie_string. by destruct raw. Qed.

(** X20. Every cookie [parse_cookie_string] returns has a non-empty name;
    name and value have no white space at their ends and hold no semicolon,
    and the name holds no equals sign. *)
Theorem parse_cookie_string_wellformed (raw : option pystr) (k v : pystr) :
  parse_cookie_string raw !! k = Some v →
  k ≠ [] ∧ stripped k ∧ stripped v ∧ (61 ∉ k) ∧ (59 ∉ k) ∧ (59 ∉ v).
Proof.
  destruct raw as [raw|]; [|done]. rewrite parse_cookie_fold.
  unfold split.
  pose proof (split_go_pieces 59 [] raw (not_elem_of_nil _)) as Hp.
  change (u ";") with [59].
  generalize dependent (split_go [59] 0 [] raw). intros pairs Hp.
  assert (∀ m : gmap pystr pystr,
            (∀ k v, m !! k = Some v →
               k ≠ [] ∧ stripped k ∧ stripped v ∧ (61 ∉ k) ∧ (59 ∉ k) ∧ (59 ∉ v)) →
            foldl cookie_step m pairs !! k = Some v →
            k ≠ [] ∧ stripped k ∧ stripped v ∧ (61 ∉ k) ∧ (59 ∉ k) ∧ (59 ∉ v)) as H.
  { induction Hp as [|p pairs Hp _ IH]; intros m Hm; [apply Hm|].
    simpl. apply IH. intros k' v' Hkv.
    destruct (cookie_step_cases m p) as [He|(k0 & v0 & He & Hs & Hn & Hne)];
      rewrite He in Hkv; [by apply Hm|].
    destruct (decide (strip k0 = k')) as [<-|Hk]; [|rewrite lookup_insert_ne in Hkv by done; by apply Hm].
    rewrite lookup_insert_eq in Hkv. injection Hkv as <-.
    assert (∀ x, x ∈ k0 ∨ x ∈ v0 → x ∈ p) as Hsub.
    { intros x Hx. apply strip_elem. rewrite Hs.
      rewrite elem_of_app, elem_of_cons. tauto. }
    split; [done|]. split; [apply strip_strip|]. split; [apply strip_strip|].
    split; [intros Hx; by apply strip_elem in Hx|].
    split; intros Hx; apply strip_elem in Hx; apply Hp; apply Hsub; tauto. }
  apply H. intros k' v' Hkv. by rewrite lookup_empty in Hkv.
Qed.

Lemma parse_cookie_string_wellformed_witness :
  u "b" ≠ [] ∧ stripped (u "b") ∧ stripped (u "2")
  ∧ (61 ∉ u "b") ∧ (59 ∉ u "b") ∧ (59 ∉ u "2").
Proof.
  apply (parse_cookie_string_wellformed (Some (u "a=1; b = 2 ;c")) (u "b") (u "2")).
  vm_compute. reflexivity.
Defined.

(** X21. Cookies are read left to right and a later one overrides an
    earlier one of the same name: parsing a header that continues after a
    semicolon gives the cookies of the continuation, completed by those of
    the first piece. *)
Theorem parse_cookie_string_later_wins (p rest : pystr) :
  59 ∉ p →
  parse_cookie_string (Some (p ++ u ";" ++ rest))
  = parse_cookie_string (Some rest) ∪ parse_cookie_string (Some p).
Proof.
  intros Hp. rewrite !parse_cookie_fold. unfold split.
  change (u ";") with [59]. cbn [app].
  rewrite split_go_cut by done.
  rewrite (split_go_single 59 [] p) by done. cbn [rev app foldl].
  by rewrite foldl_cookie_union.
Qed.

Lemma parse_cookie_string_later_wins_witness :
  parse_cookie_string (Some (u "a=1" ++ u ";" ++ u " a=2"))
  = parse_cookie_string (Some (u " a=2")) ∪ parse_cookie_string (Some (u "a=1")).
Proof.
  apply (parse_cookie_string_later_wins (u "a=1") (u " a=2")).
  apply (bool_decide_unpack _). vm_compute. exact I.
Defined.

(** X22. A single well-formed pair is read back as it is: for a name and
    a value without white space at their ends and without semicolon, the
    name non-empty and without equals sign, parsing [name=value] gives
    exactly that cookie. *)
Theorem parse_cookie_string_pair (k v : pystr) :
  k ≠ [] → stripped k → stripped v → 61 ∉ k → 59 ∉ k → 59 ∉ v →
  parse_cookie_string (Some (k ++ u "=" ++ v)) = {[ k := v ]}.
Proof.
  intros Hne Hk Hv H61 H59k H59v. rewrite parse_cookie_fold. unfold split.
  change (u ";") with [59]. change (u "=") with [61]. cbn [app].
  assert (is_space 61 = false) as Heq by reflexivity.
  assert (strip (k ++ 61 :: v) = k ++ 61 :: v) as Hs.
  { apply strip_fixed.
    - intros c r Hc. destruct k as [|a k']; [done|]. injection Hc as <- _.
      apply (proj1 (strip_ends (a :: k')) a k'). exact Hk.
    - intros r c Hc. destruct (decide (v = [])) as [->|Hvn].
      + apply app_inj_tail in Hc as [_ <-]. exact Heq.
      + destruct (exists_last Hvn) as (v' & c' & ->).
        change (k ++ 61 :: v' ++ [c']) with (k ++ (61 :: v') ++ [c']) in Hc.
        rewrite (assoc_L (++)) in Hc. apply app_inj_tail in Hc as [_ <-].
        apply (proj2 (strip_ends (v' ++ [c'])) v' c'). exact Hv. }
  rewrite split_go_single.
  - cbn [rev app foldl]. unfold cookie_step. rewrite Hs.
    change (u "=") with [61].
    assert (contains [61] (k ++ 61 :: v) = true) as ->.
    { apply contains_single. rewrite elem_of_app, elem_of_cons. tauto. }
    assert (truthy (k ++ 61 :: v) = true) as -> by (by destruct k).
    cbn [negb orb]. rewrite split_once_cut by done.
    unfold stripped in Hk, Hv. rewrite Hk, Hv.
    rewrite (proj2 (truthy_nonempty k) Hne). by rewrite insert_empty.
  - rewrite elem_of_app, elem_of_cons. intros [?|[?|?]]; done.
Qed.

Lemma parse_cookie_string_pair_witness :
  parse_cookie_string (Some (u "sid" ++ u "=" ++ u "x=y")) = {[ u "sid" := u "x=y" ]}.
Proof.
  apply (parse_cookie_string_pair (u "sid") (u "x=y")).
  - discriminate.
  - reflexivity.
  - reflexivity.
  - apply (bool_decide_unpack _). vm_compute. exact I.
  - apply (bool_decide_unpack _). vm_compute. exact I.
  - apply (bool_decide_unpack _). vm_compute. exact I.
Defined.

(** ** The detail extractor, continued *)

Ltac closed_ne := let H := fresh in intros H; vm_compute in H; discriminate H.

Lemma filled_insert (d : gmap pystr pystr) (k v : pystr) :
  k ≠ [] → v ≠ [] → filled d → filled (<[k := v]> d).
Proof.
  intros Hk Hv Hd k' v' H. destruct (decide (k = k')) as [<-|Hne].
  - rewrite lookup_insert_eq in H. by injection H as <-.
  - rewrite lookup_insert_ne in H by done. by apply Hd.
Qed.

Lemma nonempty_Forall (l : list pystr) : Forall (fun s => s ≠ []) (nonempty l).
Proof.
  apply Forall_forall. intros s Hs. unfold nonempty in Hs.
  apply list_elem_of_filter in Hs as [Hs _]. by apply truthy_nonempty.
Qed.

Lemma join_filled (sep : pystr) (l : list pystr) :
  l ≠ [] → Forall (fun s => s ≠ []) l → join sep l ≠ [].
Proof. apply join_nonempty. Qed.

Lemma foldl_invariant {A B} (P : A → Prop) (f : A → B → A) (l : list B) (a : A) :
  (∀ a b, P a → P (f a b)) → P a → P (foldl f a l).
Proof.
  intros Hf. revert a. induction l as [|b l IH]; intros a Ha; [done|].
  simpl. apply IH. by apply Hf.
Qed.

Lemma tags_step_filled (tree : node) (d : gmap pystr pystr) :
  filled d → filled (tags_step tree d).
Proof.
  intros Hd. unfold tags_step.
  pose proof (nonempty_Forall (strip <$>
    (descend [(Child, is_elem (u "a")); (Desc, div_has (u "tags")); (Desc, baseinform)]
             is_text tree ≫= text_of))) as Hf.
  destruct (nonempty _) as [|t ts] eqn:Ht; [done|].
  apply filled_insert; [closed_ne| |done]. by apply join_filled.
Qed.

Lemma sections_step_filled (tree : node) (d : gmap pystr pystr) :
  filled d → filled (sections_step tree d).
Proof.
  intros Hd. unfold sections_step. apply foldl_invariant; [|done].
  intros a section Ha.
  destruct (truthy _ && truthy _) eqn:Hc; [|done].
  apply andb_true_iff in Hc as [Ht Hc].
  apply filled_insert; [by apply truthy_nonempty|by apply truthy_nonempty|done].
Qed.

Lemma transaction_step_filled (tree : node) (d : gmap pystr pystr) :
  filled d → filled (transaction_step tree d).
Proof.
  intros Hd. unfold transaction_step.
  set (step := fun '(d, pairs) item => _).
  assert (filled (foldl step (d, []) (descend [(Desc, div_has (u "transaction"))]
                                        (is_elem (u "li")) tree)).1
          ∧ Forall (fun s => s ≠ [])
              (foldl step (d, []) (descend [(Desc, div_has (u "transaction"))]
                                     (is_elem (u "li")) tree)).2) as [H1 H2].
  { apply (foldl_invariant (fun a => filled a.1 ∧ Forall (fun s => s ≠ []) a.2));
      [|by split].
    intros [a pairs] item [Ha Hp]. unfold step. simpl.
    destruct (truthy _ && truthy _) eqn:Hc; [|by split].
    apply andb_true_iff in Hc as [Hl Hv]. simpl. split.
    - apply filled_insert; [by apply truthy_nonempty|by apply truthy_nonempty|done].
    - apply Forall_app. split; [done|]. constructor; [|constructor].
      apply truthy_nonempty in Hl. intros Happ.
      apply app_eq_nil in Happ as [? _]. done. }
  destruct (foldl step _ _) as [d' pairs]. simpl in H1, H2.
  destruct pairs as [|p ps]; [done|].
  apply filled_insert; [closed_ne| |done]. by apply join_filled.
Qed.

Lemma layout_step_filled (tree : node) (d : gmap pystr pystr) :
  filled d → filled (layout_step tree d).
Proof.
  intros Hd. unfold layout_step.
  set (step := fun items layout_row => _).
  assert (Forall (fun s => s ≠ [])
            (foldl step [] (descend [(Desc, div_has (u "layout-wrapper"))]
                              (div_has (u "row")) tree))) as Hf.
  { apply (foldl_invariant (Forall (fun s : pystr => s ≠ []))); [|constructor].
    intros items layout_row Hi. unfold step.
    pose proof (nonempty_Forall ((fun col => strip (concat (all_texts col)))
       <$> child (u "div") (class_has (u "col")) [layout_row])) as Hc.
    destruct (nonempty _) as [|c cs]; [done|].
    apply Forall_app. split; [done|]. constructor; [|constructor].
    by apply join_filled. }
  destruct (foldl step _ _) as [|i is_]; [done|].
  apply filled_insert; [closed_ne| |done]. by apply join_filled.
Qed.

(** X23. A detail record never holds an empty key or an empty value: what
    [parse_detail] finds empty it leaves out, whatever the page. *)
Theorem parse_detail_filled (etree_HTML : pystr → parsed) (html : pystr)
    (d : gmap pystr pystr) (k v : pystr) :
  parse_detail etree_HTML html = Return d →
  d !! k = Some v →
  k ≠ [] ∧ v ≠ [].
Proof.
  unfold parse_detail, parse_detail_parsed.
  destruct (etree_HTML html) as [e| |tree]; [done| |].
  - intros [= <-]. by rewrite lookup_empty.
  - destruct (contains _ html || contains _ html).
    + intros [= <-] Hk. apply lookup_singleton_Some in Hk as [<- <-].
      split; closed_ne.
    + intros [= <-]. revert k v.
      apply layout_step_filled, transaction_step_filled, sections_step_filled,
            tags_step_filled.
      intros k v Hk. by rewrite lookup_empty in Hk.
Qed.

Lemma parse_detail_filled_witness :
  u "核心卖点" ≠ [] ∧ u "南北通透" ≠ [].
Proof.
  apply (parse_detail_filled (fun _ => ParseTree detail_tree) (u "<html></html>")
           detail_record (u "核心卖点") (u "南北通透")).
  - vm_compute. reflexivity.
  - vm_compute. reflexivity.
Defined.
